(** * A task manager with JSON persistence: embedding and properties

    Shallow embedding of [src/main.py]: the classes [Task] and
    [TaskManager], the file [tasks.json] they persist to, and the
    messages they print.

    Conventions of the embedding.
    - Python values are dynamically typed.  The attributes of a task hold
      a [value]: plain data (what [json.load] can return) or a naive
      [datetime].  Floats are left out of [data]; nothing in the program
      computes with them.
    - The file is represented by what [json.load] returns on its text
      ([Doc d]), or by [Garbled] when the decoder rejects the text.
      [json.dump] followed by [json.load] is the identity on [data], so
      a write of [d] leaves [Doc d].
    - Printed lines are kept as structured [message]s in the order in
      which they are printed.
    - An exception that leaves an operation is returned next to the
      state in which it left it.
    - [list.sort] is the sort of CPython 3.11, followed comparison by
      comparison, because the list it leaves when a comparison raises
      depends on the algorithm. *)

From Stdlib Require Import ZArith Lia Ascii String.
From stdpp Require Import base option list sorting strings pretty.

Set Warnings "-register-all".
Local Open Scope Z_scope.

(** ** Python data *)

(** The values [json.load] returns: [None], [bool], [int], [str], [list]
    and [dict] with string keys (in insertion order). *)
Inductive data : Type :=
| DNone
| DBool (b : bool)
| DInt (z : Z)
| DStr (s : string)
| DList (l : list data)
| DDict (kv : list (string * data)).

(** [datetime.datetime], naive (no [tzinfo]). *)
Record datetime : Type := mkDatetime {
  year : Z; month : Z; day : Z;
  hour : Z; minute : Z; second : Z; microsecond : Z
}.

Inductive value : Type :=
| Plain (d : data)
| Datetime (dt : datetime).

Abbreviation VNone := (Plain DNone).
Abbreviation VInt z := (Plain (DInt z)).
Abbreviation VStr s := (Plain (DStr s)).

(** Exceptions that the program does not catch where they arise. *)
Inductive exn : Type :=
| TypeError | ValueError | KeyError | OverflowError | AttributeError.

Inductive result (A : Type) : Type :=
| Ok (a : A)
| Raise (e : exn).
Arguments Ok {A} a.
Arguments Raise {A} e.

Definition result_bind {A B} (r : result A) (k : A -> result B) : result B :=
  match r with Ok a => k a | Raise e => Raise e end.

Notation "'let!' x ':=' r 'in' k" := (result_bind r (fun x => k))
  (at level 10, x pattern, r at level 100, k at level 200).

(** ** The calendar of [datetime] *)

Definition is_leap (y : Z) : bool :=
  (y mod 4 =? 0) && (negb (y mod 100 =? 0) || (y mod 400 =? 0)).

Definition DAYS_IN_MONTH (m : Z) : Z :=
  match m with
  | 1 => 31 | 2 => 28 | 3 => 31 | 4 => 30 | 5 => 31 | 6 => 30
  | 7 => 31 | 8 => 31 | 9 => 30 | 10 => 31 | 11 => 30 | 12 => 31
  | _ => 0
  end.

Definition DAYS_BEFORE_MONTH (m : Z) : Z :=
  match m with
  | 1 => 0 | 2 => 31 | 3 => 59 | 4 => 90 | 5 => 120 | 6 => 151
  | 7 => 181 | 8 => 212 | 9 => 243 | 10 => 273 | 11 => 304 | 12 => 334
  | _ => 0
  end.

Definition days_in_month (y m : Z) : Z :=
  if (m =? 2) && is_leap y then 29 else DAYS_IN_MONTH m.

Definition days_before_year (y : Z) : Z :=
  let y' := y - 1 in y' * 365 + y' / 4 - y' / 100 + y' / 400.

Definition days_before_month (y m : Z) : Z :=
  DAYS_BEFORE_MONTH m + (if (2 <? m) && is_leap y then 1 else 0).

Definition ymd2ord (y m d : Z) : Z :=
  days_before_year y + days_before_month y m + d.

Definition MAXORDINAL : Z := 3652059.

Definition ord2ymd (n0 : Z) : Z * Z * Z :=
  let n := n0 - 1 in
  let n400 := n / 146097 in let n := n mod 146097 in
  let y := n400 * 400 + 1 in
  let n100 := n / 36524 in let n := n mod 36524 in
  let n4 := n / 1461 in let n := n mod 1461 in
  let n1 := n / 365 in let n := n mod 365 in
  let y := y + n100 * 100 + n4 * 4 + n1 in
  if (n1 =? 4) || (n100 =? 4) then (y - 1, 12, 31)
  else
    let leapyear := (n1 =? 3) && (negb (n4 =? 24) || (n100 =? 3)) in
    let m := Z.shiftr (n + 50) 5 in
    let preceding := DAYS_BEFORE_MONTH m + (if (2 <? m) && leapyear then 1 else 0) in
    let '(m, preceding) :=
      if n <? preceding
      then (m - 1,
            preceding - (DAYS_IN_MONTH (m - 1)
                         + (if (m - 1 =? 2) && leapyear then 1 else 0)))
      else (m, preceding) in
    (y, m, n - preceding + 1).

(** What the constructor [datetime(...)] accepts. *)
Definition valid_date (y m d : Z) : bool :=
  (1 <=? y) && (y <=? 9999) && (1 <=? m) && (m <=? 12)
  && (1 <=? d) && (d <=? days_in_month y m).

Definition valid_datetime (dt : datetime) : bool :=
  valid_date (year dt) (month dt) (day dt)
  && (0 <=? hour dt) && (hour dt <=? 23)
  && (0 <=? minute dt) && (minute dt <=? 59)
  && (0 <=? second dt) && (second dt <=? 59)
  && (0 <=? microsecond dt) && (microsecond dt <=? 999999).

(** [datetime.max] *)
Definition datetime_max : datetime := mkDatetime 9999 12 31 23 59 59 999999.

(** [dt + timedelta(days=n)]: the time of day is kept, the date moves by
    [n] days; a result outside years 1..9999 raises [OverflowError]. *)
Definition add_days (dt : datetime) (n : Z) : result datetime :=
  let o := ymd2ord (year dt) (month dt) (day dt) + n in
  if (1 <=? o) && (o <=? MAXORDINAL) then
    let '(y, m, d) := ord2ymd o in
    Ok (mkDatetime y m d (hour dt) (minute dt) (second dt) (microsecond dt))
  else Raise OverflowError.

(** ** Text of a [datetime] *)

(** ["%0wd" % n] for a field [n] of a datetime (never negative). *)
Definition zfill (w : nat) (s : string) : string :=
  String.string_of_list_ascii (replicate (w - String.length s) "0"%char) +:+ s.

Definition fmt_d (w : nat) (n : Z) : string := zfill w (pretty (Z.to_N n)).

(** [str(dt)], that is [dt.isoformat(sep=" ")]: the microseconds are
    printed only when they are not zero. *)
Definition str_datetime (dt : datetime) : string :=
  fmt_d 4 (year dt) +:+ "-" +:+ fmt_d 2 (month dt) +:+ "-" +:+ fmt_d 2 (day dt)
  +:+ " " +:+ fmt_d 2 (hour dt) +:+ ":" +:+ fmt_d 2 (minute dt)
  +:+ ":" +:+ fmt_d 2 (second dt)
  +:+ (if microsecond dt =? 0 then "" else "." +:+ fmt_d 6 (microsecond dt)).

(** ** [datetime.strptime(s, "%Y-%m-%d")]

    The format is compiled to the regular expression
    [(\d\d\d\d)-(1[0-2]|0[1-9]|[1-9])-(3[0-1]|[1-2]\d|0[1-9]|[1-9]| [1-9])]
    and matched at the start of the text.  A matcher returns its matches
    in the order in which the backtracking engine tries them; the match
    of the expression is the first one. *)

Definition matcher (A : Type) : Type := string -> list (A * string).

Definition digit_of (c : ascii) : option Z :=
  let n := Z.of_N (N_of_ascii c) in
  if (48 <=? n) && (n <=? 57) then Some (n - 48) else None.

(** one character whose digit lies in [lo..hi] *)
Definition re_range (lo hi : Z) : matcher Z := fun s =>
  match s with
  | String c r =>
      match digit_of c with
      | Some d => if (lo <=? d) && (d <=? hi) then [(d, r)] else []
      | None => []
      end
  | EmptyString => []
  end.

Definition re_char (c : ascii) : matcher unit := fun s =>
  match s with
  | String c' r => if Ascii.eqb c c' then [(tt, r)] else []
  | EmptyString => []
  end.

Definition re_seq {A B C} (f : A -> B -> C) (p : matcher A) (q : matcher B) : matcher C :=
  fun s => '(a, r) ← p s; '(b, r') ← q r; [(f a b, r')].

Definition re_alt {A} (p q : matcher A) : matcher A := fun s => p s ++ q s.

Definition two_digits (a b : Z) : Z := 10 * a + b.

Definition re_Y : matcher Z :=
  re_seq two_digits
    (re_seq two_digits (re_seq two_digits (re_range 0 9) (re_range 0 9)) (re_range 0 9))
    (re_range 0 9).

Definition re_m : matcher Z :=
  re_alt (re_seq two_digits (re_range 1 1) (re_range 0 2))
  (re_alt (re_seq two_digits (re_range 0 0) (re_range 1 9))
          (re_range 1 9)).

Definition re_d : matcher Z :=
  re_alt (re_seq two_digits (re_range 3 3) (re_range 0 1))
  (re_alt (re_seq two_digits (re_range 1 2) (re_range 0 9))
  (re_alt (re_seq two_digits (re_range 0 0) (re_range 1 9))
  (re_alt (re_range 1 9)
          (re_seq (fun _ d => d) (re_char " ") (re_range 1 9))))).

Definition re_date : matcher (Z * Z * Z) :=
  re_seq (fun y md => (y, fst md, snd md)) re_Y
    (re_seq (fun _ md => md) (re_char "-")
       (re_seq (fun m d => (m, d)) re_m
          (re_seq (fun _ d => d) (re_char "-") re_d))).

(** No match, text left after the match, and a day that the month does
    not have (or year 0) all raise [ValueError]. *)
Definition strptime (s : string) : result datetime :=
  match re_date s with
  | [] => Raise ValueError
  | (y, m, d, rest) :: _ =>
      match rest with
      | EmptyString =>
          if valid_date y m d then Ok (mkDatetime y m d 0 0 0 0)
          else Raise ValueError
      | String _ _ => Raise ValueError
      end
  end.

(** ** Python's [==], [<] and truth value on these values *)

Definition int_like (d : data) : option Z :=
  match d with
  | DBool b => Some (if b then 1 else 0)
  | DInt z => Some z
  | _ => None
  end.

(** [d[k]] for a dict, first binding of [k] (the keys of a dict are distinct). *)
Fixpoint dict_get (k : string) (kv : list (string * data)) : option data :=
  match kv with
  | [] => None
  | (k', v) :: kv' => if String.eqb k k' then Some v else dict_get k kv'
  end.

Fixpoint data_eq (a b : data) {struct a} : bool :=
  match a, b with
  | DNone, DNone => true
  | DStr x, DStr y => String.eqb x y
  | DList x, DList y =>
      (fix go (x y : list data) {struct x} : bool :=
         match x, y with
         | [], [] => true
         | a' :: x', b' :: y' => data_eq a' b' && go x' y'
         | _, _ => false
         end) x y
  | DDict x, DDict y =>
      (length x =? length y)%nat
      && (fix go (x : list (string * data)) {struct x} : bool :=
            match x with
            | [] => true
            | (k, v) :: x' =>
                match dict_get k y with
                | Some v' => data_eq v v' && go x'
                | None => false
                end
            end) x
  | (DBool _ | DInt _), (DBool _ | DInt _) =>
      match int_like a, int_like b with
      | Some x, Some y => x =? y
      | _, _ => false
      end
  | _, _ => false
  end.

Definition datetime_fields (dt : datetime) : list Z :=
  [year dt; month dt; day dt; hour dt; minute dt; second dt; microsecond dt].

(** Lexicographic [<] on lists of integers. *)
Fixpoint lex_ltb (a b : list Z) : bool :=
  match a, b with
  | [], [] => false
  | [], _ :: _ => true
  | _ :: _, [] => false
  | x :: a', y :: b' => if x =? y then lex_ltb a' b' else x <? y
  end.

Definition datetime_eqb (a b : datetime) : bool :=
  bool_decide (datetime_fields a = datetime_fields b).

Definition datetime_ltb (a b : datetime) : bool :=
  lex_ltb (datetime_fields a) (datetime_fields b).

Definition py_eq (a b : value) : bool :=
  match a, b with
  | Plain x, Plain y => data_eq x y
  | Datetime x, Datetime y => datetime_eqb x y
  | _, _ => false
  end.

(** [a < b]: defined between two integers (or booleans), two strings and
    two lists; [TypeError] otherwise. *)
Fixpoint data_lt (a b : data) {struct a} : result bool :=
  match a, b with
  | DStr x, DStr y => Ok (String.ltb x y)
  | DList x, DList y =>
      (fix go (x y : list data) {struct x} : result bool :=
         match x, y with
         | [], [] => Ok false
         | [], _ :: _ => Ok true
         | _ :: _, [] => Ok false
         | a' :: x', b' :: y' =>
             if data_eq a' b' then go x' y' else data_lt a' b'
         end) x y
  | (DBool _ | DInt _), (DBool _ | DInt _) =>
      match int_like a, int_like b with
      | Some x, Some y => Ok (x <? y)
      | _, _ => Raise TypeError
      end
  | _, _ => Raise TypeError
  end.

Definition py_lt (a b : value) : result bool :=
  match a, b with
  | Plain x, Plain y => data_lt x y
  | Datetime x, Datetime y => Ok (datetime_ltb x y)
  | _, _ => Raise TypeError
  end.

(** Truth value: [None], [False], [0] and empty containers are false;
    a [datetime] is always true. *)
Definition truthy (v : value) : bool :=
  match v with
  | Plain DNone => false
  | Plain (DBool b) => b
  | Plain (DInt z) => negb (z =? 0)
  | Plain (DStr s) => negb (String.eqb s "")
  | Plain (DList l) => match l with [] => false | _ => true end
  | Plain (DDict kv) => match kv with [] => false | _ => true end
  | Datetime _ => true
  end.

(** ** class Task *)

(** The five attributes set by [__init__], and [obj], the identity of the
    object (what [is] compares).  Every [Task] object is referenced from
    at most one slot of [self.tasks], so a slot stores the attributes of
    its object together with that identity. *)
Record Task : Type := mkTask {
  obj : nat;
  task_id : value;
  name : value;
  priority : value;
  due_date : value;
  status : value
}.

(** [Task(task_id, name, priority, due_date)] at a fresh identity. *)
Definition Task_init (o : nat) (tid nm pr due : value) : Task :=
  mkTask o tid nm pr due (VStr "Pending").

Definition set_status (st : value) (t : Task) : Task :=
  mkTask (obj t) (task_id t) (name t) (priority t) (due_date t) st.

Definition set_due_date (due : value) (t : Task) : Task :=
  mkTask (obj t) (task_id t) (name t) (priority t) due (status t).

Definition Task_mark_complete (t : Task) : Task := set_status (VStr "Completed") t.

(** The lines the program prints, by the values that fill them in.  The
    due date of a listed task is the date [strftime("%Y-%m-%d")]
    renders, or [None] for ["No due date"]. *)
Inductive message : Type :=
| MsgNoDueDate (nm : value)       (* Task {name} does not have a due date to postpone. *)
| MsgLine (tid nm pr : value) (due : option (Z * Z * Z)) (st : value)
                                  (* [{id}] {name} - Priority: .., Due: .., Status: .. *)
| MsgNotFound (tid : value)       (* Task with ID {id} not found. *)
| MsgRemoved (tid : value)        (* Task {id} removed successfully. *)
| MsgPrioritized                  (* Tasks have been prioritized successfully. *)
| MsgPrioritizeError              (* An error occurred while prioritizing tasks: .. *)
| MsgCompleted (tid : value)      (* Task {id} marked as complete. *)
| MsgSaveError                    (* Error saving tasks: .. *)
| MsgLoadError.                   (* Error loading tasks: .. *)

(** [postpone]: the task after the call and what it printed, or the
    exception of [self.due_date += timedelta(days=days)].  The
    [timedelta] is built first and takes at most 999999999 days; adding
    it to anything but a datetime is a [TypeError]. *)
Definition Task_postpone (t : Task) (days : Z) : result (Task * list message) :=
  if truthy (due_date t) then
    if 999999999 <? Z.abs days then Raise OverflowError
    else
      match due_date t with
      | Datetime dt =>
          let! dt' := add_days dt days in Ok (set_due_date (Datetime dt') t, [])
      | Plain _ => Raise TypeError
      end
  else Ok (t, [MsgNoDueDate (name t)]).

(** ** The file [tasks.json] and the output *)

Inductive file : Type :=
| NoFile                (* [os.path.isfile] is false *)
| Garbled               (* text that [json.load] rejects with [JSONDecodeError] *)
| Doc (d : data).       (* text that [json.load] decodes to [d] *)

Inductive event : Type :=
| Print (m : message)
| Written (d : data).   (* [json.dump] wrote the file *)

(** The state of a run: [self.tasks], the file with whether [open]
    succeeds on it for reading and for writing (it raises [IOError]
    otherwise), what happened so far, and the next free object identity. *)
Record World : Type := mkWorld {
  tasks : list Task;
  disk : file;
  can_read : bool;
  can_write : bool;
  trace : list event;
  next_obj : nat
}.

Definition set_tasks (l : list Task) (w : World) : World :=
  mkWorld l (disk w) (can_read w) (can_write w) (trace w) (next_obj w).

Definition print (m : message) (w : World) : World :=
  mkWorld (tasks w) (disk w) (can_read w) (can_write w) (trace w ++ [Print m]) (next_obj w).

Definition write_file (d : data) (w : World) : World :=
  mkWorld (tasks w) (Doc d) (can_read w) (can_write w) (trace w ++ [Written d]) (next_obj w).

Definition alloc (w : World) : World :=
  mkWorld (tasks w) (disk w) (can_read w) (can_write w) (trace w) (S (next_obj w)).

(** ** [list.sort] with the key of [prioritize_tasks] *)

(** The sort key [(x.priority, x.due_date if x.due_date else datetime.max)]. *)
Definition sort_key (t : Task) : value * value :=
  (priority t, if truthy (due_date t) then due_date t else Datetime datetime_max).

(** [<] on two-element tuples: the first components that are not [==]
    decide. *)
Definition key_lt (a b : value * value) : result bool :=
  if negb (py_eq (fst a) (fst b)) then py_lt (fst a) (fst b)
  else if negb (py_eq (snd a) (snd b)) then py_lt (snd a) (snd b)
  else Ok false.

(** [list.sort(key=...)] computes the key of every element first and
    then sorts with [<] on the keys alone.  What follows is CPython's
    algorithm (Objects/listobject.c, version 3.11), comparison by
    comparison: the list it leaves behind when a comparison raises depends
    on how far it got.  The array is kept as lists: the runs already
    found, and the elements not yet looked at.  A loop takes a bound on
    the number of its iterations, and its caller gives it the length of
    the list it works on: every iteration moves on by a position or an
    element at least. *)
Definition task_lt (x y : Task) : result bool := key_lt (sort_key x) (sort_key y).

Definition MIN_GALLOP : Z := 7.

(** [count_run]: the length of the run at the head of [l], and whether it
    is strictly descending. *)
Fixpoint run_desc (prev : Task) (l : list Task) : result Z :=
  match l with
  | [] => Ok 0
  | x :: t =>
      let! b := task_lt x prev in
      if b then let! n := run_desc x t in Ok (n + 1) else Ok 0
  end.

Fixpoint run_asc (prev : Task) (l : list Task) : result Z :=
  match l with
  | [] => Ok 0
  | x :: t =>
      let! b := task_lt x prev in
      if b then Ok 0 else let! n := run_asc x t in Ok (n + 1)
  end.

Definition count_run (l : list Task) : result (Z * bool) :=
  match l with
  | x0 :: x1 :: t =>
      let! b := task_lt x1 x0 in
      if b then let! n := run_desc x1 t in Ok (n + 2, true)
      else let! n := run_asc x1 t in Ok (n + 2, false)
  | _ => Ok (1, false)
  end.

(** [binarysort]: [s] is sorted; the elements of [todo] are inserted one
    by one at the place a binary search finds. *)
Fixpoint bisect (fuel : nat) (pivot : Task) (s : list Task) (l r : Z) : result Z :=
  match fuel with
  | O => Ok l
  | S fuel =>
      let p := l + Z.shiftr (r - l) 1 in
      let! b := task_lt pivot (nth (Z.to_nat p) s pivot) in
      let '(l, r) := if b then (l, p) else (p + 1, r) in
      if l <? r then bisect fuel pivot s l r else Ok l
  end.

Fixpoint binarysort (s todo : list Task) : list Task * option exn :=
  match todo with
  | [] => (s, None)
  | pivot :: todo' =>
      match bisect (length s) pivot s 0 (Z.of_nat (length s)) with
      | Raise e => (s ++ todo, Some e)
      | Ok l => binarysort (take (Z.to_nat l) s ++ pivot :: drop (Z.to_nat l) s) todo'
      end
  end.

(** The two loops of [gallop_left] and [gallop_right]: the offset grows
    as 1, 3, 7, ... while [cmp] holds; then a binary search between the
    last two offsets. *)
Fixpoint gallop_up (fuel : nat) (cmp : Z -> result bool) (maxofs lastofs ofs : Z)
  : result (Z * Z) :=
  match fuel with
  | O => Ok (lastofs, ofs)
  | S fuel =>
      if ofs <? maxofs then
        let! b := cmp ofs in
        if b then gallop_up fuel cmp maxofs ofs (Z.shiftl ofs 1 + 1)
        else Ok (lastofs, ofs)
      else Ok (lastofs, ofs)
  end.

Fixpoint bsearch (fuel : nat) (cmp : Z -> result bool) (lastofs ofs : Z) : result Z :=
  match fuel with
  | O => Ok ofs
  | S fuel =>
      if lastofs <? ofs then
        let m := lastofs + Z.shiftr (ofs - lastofs) 1 in
        let! b := cmp m in
        if b then bsearch fuel cmp (m + 1) ofs else bsearch fuel cmp lastofs m
      else Ok ofs
  end.

(** [gallop_left(key, a, n, hint)]: the position in the sorted [a] before
    which [key] belongs, left of any equal elements. *)
Definition gallop_left (key : Task) (a : list Task) (hint : Z) : result Z :=
  let n := Z.of_nat (length a) in
  let elt i := nth (Z.to_nat i) a key in
  let! c := task_lt (elt hint) key in
  let! (lastofs, ofs) :=
    if c then
      let maxofs := n - hint in
      let! (lastofs, ofs) :=
        gallop_up (length a) (fun o => task_lt (elt (hint + o)) key) maxofs 0 1 in
      Ok (lastofs + hint, Z.min ofs maxofs + hint)
    else
      let maxofs := hint + 1 in
      let! (lastofs, ofs) :=
        gallop_up (length a)
          (fun o => let! b := task_lt (elt (hint - o)) key in Ok (negb b)) maxofs 0 1 in
      Ok (hint - Z.min ofs maxofs, hint - lastofs) in
  bsearch (length a) (fun m => task_lt (elt m) key) (lastofs + 1) ofs.

(** [gallop_right(key, a, n, hint)]: the same, right of any equal
    elements. *)
Definition gallop_right (key : Task) (a : list Task) (hint : Z) : result Z :=
  let n := Z.of_nat (length a) in
  let elt i := nth (Z.to_nat i) a key in
  let! c := task_lt key (elt hint) in
  let! (lastofs, ofs) :=
    if c then
      let maxofs := hint + 1 in
      let! (lastofs, ofs) :=
        gallop_up (length a) (fun o => task_lt key (elt (hint - o))) maxofs 0 1 in
      Ok (hint - Z.min ofs maxofs, hint - lastofs)
    else
      let maxofs := n - hint in
      let! (lastofs, ofs) :=
        gallop_up (length a)
          (fun o => let! b := task_lt key (elt (hint + o)) in Ok (negb b)) maxofs 0 1 in
      Ok (lastofs + hint, Z.min ofs maxofs + hint) in
  bsearch (length a) (fun m => let! b := task_lt key (elt m) in Ok (negb b)) (lastofs + 1) ofs.

(** The outcome of a merge: the slice of the array it worked on, the
    exception that ended it if one did, and [ms->min_gallop]. *)
Definition merging : Type := list Task * option exn * Z.

(** [xs] is written to the array before the rest of the merge. *)
Definition written (xs : list Task) (r : merging) : merging :=
  let '(l, e, mg) := r in (xs ++ l, e, mg).

(** [merge_lo]: the run [a] was copied out, and the merge fills the array
    from the left.  [lo_single] takes one element at a time until one run
    has won [min_gallop] times in a row; [lo_gallop] takes blocks found
    by galloping.  Where the merge stops on an exception, the rest of [a]
    is copied back in front of the rest of [b]. *)
Fixpoint lo_single (fuel : nat) (min_gallop acount bcount : Z) (a b : list Task)
  {struct fuel} : merging :=
  match fuel, a, b with
  | S fuel, a0 :: a', b0 :: b' =>
      match task_lt b0 a0 with
      | Raise e => (a ++ b, Some e, min_gallop)
      | Ok true =>
          written [b0]
            (if bool_decide (b' = []) then (a, None, min_gallop)
             else if min_gallop <=? bcount + 1 then lo_gallop fuel (min_gallop + 1) a b'
             else lo_single fuel min_gallop 0 (bcount + 1) a b')
      | Ok false =>
          written [a0]
            (if (length a' =? 1)%nat then (b ++ a', None, min_gallop)
             else if min_gallop <=? acount + 1 then lo_gallop fuel (min_gallop + 1) a' b
             else lo_single fuel min_gallop (acount + 1) 0 a' b)
      end
  | _, _, _ => (a ++ b, None, min_gallop)
  end
with lo_gallop (fuel : nat) (min_gallop : Z) (a b : list Task) {struct fuel} : merging :=
  let min_gallop := if 1 <? min_gallop then min_gallop - 1 else min_gallop in
  match fuel, a, b with
  | S fuel, _ :: _, b0 :: b1 =>
      match gallop_right b0 a 0 with
      | Raise e => (a ++ b, Some e, min_gallop)
      | Ok k =>
          let a1 := drop (Z.to_nat k) a in
          written (take (Z.to_nat k) a)
            (if negb (k =? 0) && (length a1 =? 1)%nat then (b ++ a1, None, min_gallop)
             else if negb (k =? 0) && (length a1 =? 0)%nat then (b, None, min_gallop)
             else
               written [b0]
                 (match a1, b1 with
                  | _, [] | [], _ => (a1 ++ b1, None, min_gallop)
                  | a0 :: a2, _ :: _ =>
                      match gallop_left a0 b1 0 with
                      | Raise e => (a1 ++ b1, Some e, min_gallop)
                      | Ok k2 =>
                          let b2 := drop (Z.to_nat k2) b1 in
                          written (take (Z.to_nat k2) b1)
                            (if negb (k2 =? 0) && bool_decide (b2 = [])
                             then (a1, None, min_gallop)
                             else
                               written [a0]
                                 (if (length a2 =? 1)%nat then (b2 ++ a2, None, min_gallop)
                                  else if (MIN_GALLOP <=? k) || (MIN_GALLOP <=? k2)
                                  then lo_gallop fuel min_gallop a2 b2
                                  else lo_single fuel (min_gallop + 1) 0 0 a2 b2))
                      end
                  end))
      end
  | _, _, _ => (a ++ b, None, min_gallop)
  end.

Definition merge_lo (min_gallop : Z) (a b : list Task) : merging :=
  match b with
  | [] => (a, None, min_gallop)
  | b0 :: b1 =>
      written [b0]
        (if bool_decide (b1 = []) then (a, None, min_gallop)
         else if (length a =? 1)%nat then (b1 ++ a, None, min_gallop)
         else lo_single (length a + length b) min_gallop 0 0 a b1)
  end.

(** [merge_hi]: the run [b] was copied out, and the merge fills the array
    from the right.  The loops see both runs from their right ends:
    [ra] and [rb] are the runs reversed, and so is the slice in the
    outcome. *)
Fixpoint hi_single (fuel : nat) (min_gallop acount bcount : Z) (ra rb : list Task)
  {struct fuel} : merging :=
  match fuel, ra, rb with
  | S fuel, a0 :: ra', b0 :: rb' =>
      match task_lt b0 a0 with
      | Raise e => (rb ++ ra, Some e, min_gallop)
      | Ok true =>
          written [a0]
            (if bool_decide (ra' = []) then (rb, None, min_gallop)
             else if min_gallop <=? acount + 1 then hi_gallop fuel (min_gallop + 1) ra' rb
             else hi_single fuel min_gallop (acount + 1) 0 ra' rb)
      | Ok false =>
          written [b0]
            (if (length rb' =? 1)%nat then (ra ++ rb', None, min_gallop)
             else if min_gallop <=? bcount + 1 then hi_gallop fuel (min_gallop + 1) ra rb'
             else hi_single fuel min_gallop 0 (bcount + 1) ra rb')
      end
  | _, _, _ => (rb ++ ra, None, min_gallop)
  end
with hi_gallop (fuel : nat) (min_gallop : Z) (ra rb : list Task) {struct fuel} : merging :=
  let min_gallop := if 1 <? min_gallop then min_gallop - 1 else min_gallop in
  match fuel, ra, rb with
  | S fuel, _ :: _, b0 :: rb1 =>
      let na := Z.of_nat (length ra) in
      match gallop_right b0 (reverse ra) (na - 1) with
      | Raise e => (rb ++ ra, Some e, min_gallop)
      | Ok k' =>
          let k := na - k' in
          let ra1 := drop (Z.to_nat k) ra in
          written (take (Z.to_nat k) ra)
            (if negb (k =? 0) && bool_decide (ra1 = []) then (rb, None, min_gallop)
             else
               written [b0]
                 (if (length rb1 =? 1)%nat then (ra1 ++ rb1, None, min_gallop)
                  else
                    match ra1 with
                    | [] => (rb1, None, min_gallop)
                    | a0 :: ra2 =>
                        let nb := Z.of_nat (length rb1) in
                        match gallop_left a0 (reverse rb1) (nb - 1) with
                        | Raise e => (rb1 ++ ra1, Some e, min_gallop)
                        | Ok k2' =>
                            let k2 := nb - k2' in
                            let rb2 := drop (Z.to_nat k2) rb1 in
                            written (take (Z.to_nat k2) rb1)
                              (if negb (k2 =? 0) && (length rb2 =? 1)%nat
                               then (ra1 ++ rb2, None, min_gallop)
                               else if negb (k2 =? 0) && (length rb2 =? 0)%nat
                               then (ra1, None, min_gallop)
                               else
                                 written [a0]
                                   (if bool_decide (ra2 = []) then (rb2, None, min_gallop)
                                    else if (MIN_GALLOP <=? k) || (MIN_GALLOP <=? k2)
                                    then hi_gallop fuel min_gallop ra2 rb2
                                    else hi_single fuel (min_gallop + 1) 0 0 ra2 rb2))
                        end
                    end))
      end
  | _, _, _ => (rb ++ ra, None, min_gallop)
  end.

Definition reversed (r : merging) : merging :=
  let '(l, e, mg) := r in (reverse l, e, mg).

Definition merge_hi (min_gallop : Z) (a b : list Task) : merging :=
  reversed
    match reverse a with
    | [] => (reverse b, None, min_gallop)
    | a0 :: ra1 =>
        written [a0]
          (if bool_decide (ra1 = []) then (reverse b, None, min_gallop)
           else if (length b =? 1)%nat then (ra1 ++ reverse b, None, min_gallop)
           else hi_single (length a + length b) min_gallop 0 0 ra1 (reverse b))
    end.

(** The merge worked between [xs] and [ys]. *)
Definition between (xs ys : list Task) (r : merging) : merging :=
  let '(l, e, mg) := r in (xs ++ l ++ ys, e, mg).

(** [merge_at]: merges two runs that lie next to each other.  The
    elements of [a] that precede all of [b], and the elements of [b] that
    follow all of [a], stay where they are. *)
Definition merge_at (min_gallop : Z) (a b : list Task) : merging :=
  match b with
  | [] => (a ++ b, None, min_gallop)
  | b0 :: _ =>
      match gallop_right b0 a 0 with
      | Raise e => (a ++ b, Some e, min_gallop)
      | Ok k =>
          let a1 := drop (Z.to_nat k) a in
          match last a1 with
          | None => (a ++ b, None, min_gallop)
          | Some alast =>
              match gallop_left alast b (Z.of_nat (length b) - 1) with
              | Raise e => (a ++ b, Some e, min_gallop)
              | Ok nb =>
                  if nb <=? 0 then (a ++ b, None, min_gallop)
                  else
                    let b1 := take (Z.to_nat nb) b in
                    between (take (Z.to_nat k) a) (drop (Z.to_nat nb) b)
                      (if (length a1 <=? length b1)%nat then merge_lo min_gallop a1 b1
                       else merge_hi min_gallop a1 b1)
              end
          end
      end
  end.

(** [powerloop]: the first bit at which the midpoints of two runs,
    divided by the length of the list, differ. *)
Fixpoint powerloop (fuel : nat) (a b n result : Z) : Z :=
  match fuel with
  | O => result
  | S fuel =>
      let result := result + 1 in
      if n <=? a then powerloop fuel (Z.shiftl (a - n) 1) (Z.shiftl (b - n) 1) n result
      else if n <=? b then result
      else powerloop fuel (Z.shiftl a 1) (Z.shiftl b 1) n result
  end.

(** The runs that wait to be merged, the latest first, each with its
    power; and the part of the array they make up. *)
Definition pending : Type := list (list Task * Z).

Definition pending_items (p : pending) : list Task :=
  foldr (fun r acc => acc ++ fst r) [] p.

(** [found_new_run]: merges the waiting runs whose power exceeds that of
    the boundary between the latest run and the new one, of length
    [n2]. *)
Fixpoint collapse_power (fuel : nat) (min_gallop power : Z) (p : pending)
  : pending * option exn * Z :=
  match fuel, p with
  | S fuel, (b, _) :: (a, pa) :: p' =>
      if power <? pa then
        let '(m, e, mg) := merge_at min_gallop a b in
        match e with
        | Some _ => ((m, pa) :: p', e, mg)
        | None => collapse_power fuel mg power ((m, pa) :: p')
        end
      else (p, None, min_gallop)
  | _, _ => (p, None, min_gallop)
  end.

Definition found_new_run (min_gallop listlen : Z) (p : pending) (n2 : Z)
  : pending * option exn * Z :=
  match p with
  | [] => (p, None, min_gallop)
  | (r1, _) :: p' =>
      let s1 := Z.of_nat (length (pending_items p')) in
      let n1 := Z.of_nat (length r1) in
      let power :=
        powerloop (Z.to_nat listlen + 1) (2 * s1 + n1) (2 * s1 + n1 + n1 + n2) listlen 0 in
      match collapse_power (length p) min_gallop power p with
      | ((r, _) :: q, None, mg) => ((r, power) :: q, None, mg)
      | out => out
      end
  end.

(** [merge_force_collapse]: merges all waiting runs into one. *)
Fixpoint merge_force_collapse (fuel : nat) (min_gallop : Z) (p : pending)
  : pending * option exn :=
  match fuel, p with
  | S fuel, (c, pc) :: (b, pb) :: p' =>
      let '(q, e, mg) :=
        match p' with
        | (a, pa) :: p'' =>
            if (length a <? length c)%nat then
              let '(m, e, mg) := merge_at min_gallop a b in ((c, pc) :: (m, pa) :: p'', e, mg)
            else
              let '(m, e, mg) := merge_at min_gallop b c in ((m, pb) :: p', e, mg)
        | [] =>
            let '(m, e, mg) := merge_at min_gallop b c in ((m, pb) :: p', e, mg)
        end in
      match e with
      | Some _ => (q, e)
      | None => merge_force_collapse fuel mg q
      end
  | _, _ => (p, None)
  end.

Fixpoint merge_compute_minrun (fuel : nat) (n r : Z) : Z :=
  match fuel with
  | O => n + r
  | S fuel =>
      if 64 <=? n then merge_compute_minrun fuel (Z.shiftr n 1) (Z.lor r (Z.land n 1))
      else n + r
  end.

(** The loop of [list_sort_impl]: finds the next run in [rest], extends a
    short one to [minrun] elements with [binarysort], merges waiting runs
    as [found_new_run] says, and at the end merges what waits. *)
Fixpoint runs (fuel : nat) (min_gallop listlen minrun : Z) (p : pending) (rest : list Task)
  : list Task * option exn :=
  match fuel with
  | O => (pending_items p ++ rest, None)
  | S fuel =>
      match count_run rest with
      | Raise e => (pending_items p ++ rest, Some e)
      | Ok (n, descending) =>
          let run := take (Z.to_nat n) rest in
          let run := if descending then reverse run else run in
          let rest := drop (Z.to_nat n) rest in
          let nremaining := n + Z.of_nat (length rest) in
          let force := if nremaining <=? minrun then nremaining else minrun in
          let '(run, e, rest) :=
            if n <? minrun then
              let '(run, e) := binarysort run (take (Z.to_nat (force - n)) rest) in
              (run, e, drop (Z.to_nat (force - n)) rest)
            else (run, None, rest) in
          match e with
          | Some _ => (pending_items p ++ run ++ rest, e)
          | None =>
              let '(p, e, mg) := found_new_run min_gallop listlen p (Z.of_nat (length run)) in
              match e with
              | Some _ => (pending_items p ++ run ++ rest, e)
              | None =>
                  let p := (run, 0) :: p in
                  if bool_decide (rest = []) then
                    let '(p, e) := merge_force_collapse (length p) mg p in
                    (pending_items p, e)
                  else runs fuel mg listlen minrun p rest
              end
          end
      end
  end.

Definition list_sort (l : list Task) : list Task * option exn :=
  let n := Z.of_nat (length l) in
  if n <? 2 then (l, None)
  else runs (length l) MIN_GALLOP n (merge_compute_minrun (length l) n 0) [] l.

(** ** class TaskManager *)

(** [json.dump(..., default=str)]: plain data is written as it is
    ([None] as [null]); [default] is called on what the encoder cannot
    serialize, here a [datetime], and its [str] is written. *)
Definition encode (v : value) : data :=
  match v with
  | Plain d => d
  | Datetime dt => DStr (str_datetime dt)
  end.

(** [task.__dict__] as written *)
Definition task_dict (t : Task) : data :=
  DDict [("task_id", encode (task_id t)); ("name", encode (name t));
         ("priority", encode (priority t)); ("due_date", encode (due_date t));
         ("status", encode (status t))].

(** A write that fails does so when the file is opened, and leaves the
    file as it was. *)
Definition save_tasks (w : World) : World :=
  if can_write w then write_file (DList (map task_dict (tasks w))) w
  else print MsgSaveError w.

Definition add_task (nm pr due : value) (w : World) : World :=
  let tid := VInt (Z.of_nat (length (tasks w)) + 1) in
  let new_task := Task_init (next_obj w) tid nm pr due in
  save_tasks (set_tasks (tasks w ++ [new_task]) (alloc w)).

Definition line_of (t : Task) : result message :=
  if truthy (due_date t) then
    match due_date t with
    | Datetime dt =>
        Ok (MsgLine (task_id t) (name t) (priority t)
              (Some (year dt, month dt, day dt)) (status t))
    | Plain _ => Raise AttributeError
    end
  else Ok (MsgLine (task_id t) (name t) (priority t) None (status t)).

Fixpoint list_loop (l : list Task) (w : World) : World * option exn :=
  match l with
  | [] => (w, None)
  | t :: l' =>
      match line_of t with
      | Ok m => list_loop l' (print m w)
      | Raise e => (w, Some e)
      end
  end.

Definition list_tasks (w : World) : World * option exn := list_loop (tasks w) w.

Definition find_task (tid : value) (l : list Task) : option Task :=
  find (fun t => py_eq (task_id t) tid) l.

Definition get_task_by_id (tid : value) (w : World) : World * option Task :=
  match find_task tid (tasks w) with
  | Some t => (w, Some t)
  | None => (print (MsgNotFound tid) w, None)
  end.

(** [self.tasks.remove(task)]: the first slot holding the object. *)
Fixpoint list_remove (o : nat) (l : list Task) : list Task :=
  match l with
  | [] => []
  | t :: l' => if (obj t =? o)%nat then l' else t :: list_remove o l'
  end.

Definition remove_task (tid : value) (w : World) : World :=
  match get_task_by_id tid w with
  | (w1, Some t) =>
      print (MsgRemoved tid) (save_tasks (set_tasks (list_remove (obj t) (tasks w1)) w1))
  | (w1, None) => w1
  end.

(** [prioritize_tasks]: the sort works in place.  When a comparison
    raises, the list stays as the sort left it, nothing is saved, and the
    error is reported. *)
Definition prioritize_tasks (w : World) : World :=
  match list_sort (tasks w) with
  | (l, None) => print MsgPrioritized (save_tasks (set_tasks l w))
  | (l, Some _) => print MsgPrioritizeError (set_tasks l w)
  end.

(** [task.mark_complete()] on the object: every slot that holds it
    sees the new status. *)
Definition update_obj (o : nat) (f : Task -> Task) (l : list Task) : list Task :=
  map (fun t => if (obj t =? o)%nat then f t else t) l.

Definition mark_task_complete (tid : value) (w : World) : World :=
  match get_task_by_id tid w with
  | (w1, Some t) =>
      print (MsgCompleted tid)
        (save_tasks (set_tasks (update_obj (obj t) Task_mark_complete (tasks w1)) w1))
  | (w1, None) => w1
  end.

(** [task_data[k]] *)
Definition subscript (d : data) (k : string) : result data :=
  match d with
  | DDict kv => match dict_get k kv with Some v => Ok v | None => Raise KeyError end
  | _ => Raise TypeError
  end.

(** What [for task_data in tasks_data] iterates over. *)
Definition iterate (d : data) : result (list data) :=
  match d with
  | DList l => Ok l
  | DDict kv => Ok (map (fun p => DStr (fst p)) kv)
  | DStr s => Ok (map (fun c => DStr (String c EmptyString)) (String.list_ascii_of_string s))
  | _ => Raise TypeError
  end.

(** The arguments of the call [Task(...)] in [load_tasks], evaluated in
    the order in which they are written. *)
Definition load_args (td : data) : result (value * value * value * value) :=
  let! tid := subscript td "task_id" in
  let! nm := subscript td "name" in
  let! pr := subscript td "priority" in
  let! dd := subscript td "due_date" in
  if negb (data_eq dd (DStr "None")) then
    match dd with
    | DStr s => let! dt := strptime s in Ok (Plain tid, Plain nm, Plain pr, Datetime dt)
    | _ => Raise TypeError
    end
  else Ok (Plain tid, Plain nm, Plain pr, VNone).

Fixpoint load_loop (items : list data) (w : World) : World * option exn :=
  match items with
  | [] => (w, None)
  | td :: items' =>
      match load_args td with
      | Raise e => (w, Some e)
      | Ok (tid, nm, pr, due) =>
          let task := Task_init (next_obj w) tid nm pr due in
          let w1 := alloc w in
          match subscript td "status" with
          | Raise e => (w1, Some e)
          | Ok st =>
              load_loop items' (set_tasks (tasks w1 ++ [set_status (Plain st) task]) w1)
          end
      end
  end.

(** Only [IOError] and [json.JSONDecodeError] are caught. *)
Definition load_tasks (w : World) : World * option exn :=
  match disk w with
  | NoFile => (w, None)
  | Garbled => (print MsgLoadError w, None)
  | Doc d =>
      if can_read w then
        match iterate d with
        | Ok items => load_loop items w
        | Raise e => (w, Some e)
        end
      else (print MsgLoadError w, None)
  end.

(** [TaskManager()] in an environment: [self.tasks = []], then
    [self.load_tasks()]. *)
Definition TaskManager_init (f : file) (r wr : bool) : World * option exn :=
  load_tasks (mkWorld [] f r wr [] 0).

(** ** Calls of the public interface *)

Inductive call : Type :=
| CallAddTask (nm pr due : value)
| CallListTasks
| CallGetTaskById (tid : value)
| CallRemoveTask (tid : value)
| CallPrioritizeTasks
| CallMarkTaskComplete (tid : value)
| CallSaveTasks
| CallLoadTasks
| CallMarkComplete (o : nat)             (* [task.mark_complete()] on a task of the store *)
| CallPostpone (o : nat) (days : Z).     (* [task.postpone(days)] on a task of the store *)

Definition postpone_obj (o : nat) (days : Z) (w : World) : World * option exn :=
  match find (fun t => (obj t =? o)%nat) (tasks w) with
  | None => (w, None)
  | Some t =>
      match Task_postpone t days with
      | Ok (t', msgs) =>
          (foldl (fun w m => print m w)
             (set_tasks (update_obj o (fun _ => t') (tasks w)) w) msgs, None)
      | Raise e => (w, Some e)
      end
  end.

Definition run (c : call) (w : World) : World * option exn :=
  match c with
  | CallAddTask nm pr due => (add_task nm pr due w, None)
  | CallListTasks => list_tasks w
  | CallGetTaskById tid => (fst (get_task_by_id tid w), None)
  | CallRemoveTask tid => (remove_task tid w, None)
  | CallPrioritizeTasks => (prioritize_tasks w, None)
  | CallMarkTaskComplete tid => (mark_task_complete tid w, None)
  | CallSaveTasks => (save_tasks w, None)
  | CallLoadTasks => load_tasks w
  | CallMarkComplete o => (set_tasks (update_obj o Task_mark_complete (tasks w)) w, None)
  | CallPostpone o days => postpone_obj o days w
  end.

(** A client that goes on after an exception (it may catch it). *)
Definition run_all (cs : list call) (w : World) : World :=
  foldl (fun w c => fst (run c w)) w cs.

(** ** Notions used to state the properties *)

(** A task as the data model has it for sorting: an integer priority,
    and a due date that is absent or a datetime. *)
Definition typed (t : Task) : bool :=
  match priority t, due_date t with
  | Plain (DInt _), (Plain DNone | Datetime _) => true
  | _, _ => false
  end.

Definition priority_of (t : Task) : Z :=
  match priority t with Plain (DInt p) => p | _ => 0 end.

Definition due_or_max (t : Task) : datetime :=
  match due_date t with Datetime d => d | _ => datetime_max end.

(** The sort key of a typed task as a list of integers, compared
    lexicographically. *)
Definition zkey (t : Task) : list Z :=
  priority_of t :: datetime_fields (due_or_max t).
Arguments zkey : simpl never.

(** The sort the specification describes: stable, ascending by
    (priority, due date or the maximal datetime), written as an insertion
    sort.  [list_sort] is compared with it. *)
Fixpoint insert_by (x : Task) (l : list Task) : list Task :=
  match l with
  | [] => [x]
  | y :: l' => if lex_ltb (zkey y) (zkey x) then y :: insert_by x l' else x :: y :: l'
  end.

Definition sort_by (l : list Task) : list Task := foldr insert_by [] l.

Definition key_le (a b : Task) : Prop := lex_ltb (zkey b) (zkey a) = false.

(** [<] on the integer keys of two tasks. *)
Definition ltb (x y : Task) : bool := lex_ltb (zkey x) (zkey y).

(** The tasks of any one key stand in [l] in the order in which they
    stand in [r]. *)
Definition same_order (l r : list Task) : Prop :=
  forall k : list Z, filter (fun t => zkey t = k) l = filter (fun t => zkey t = k) r.










(** [add_task] called once per entry of [specs] (name, priority, due date). *)
Definition add_all (specs : list (value * value * value)) (w : World) : World :=
  foldl (fun w '(nm, pr, due) => add_task nm pr due w) w specs.

(** The tuple of a task that the round trip is about. *)
Definition fields (t : Task) : value * value * value * value * value :=
  (task_id t, name t, priority t, due_date t, status t).

(** The record of one task in the file. *)
Definition record (tid nm pr due st : data) : data :=
  DDict [("task_id", tid); ("name", nm); ("priority", pr); ("due_date", due); ("status", st)].

(** A matcher that takes at most [n] characters off the text. *)
Definition consumes {A} (n : nat) (p : matcher A) : Prop :=
  forall (s : string) (a : A) (r : string),
    (a, r) ∈ p s -> (String.length s <= String.length r + n)%nat.

(** The status after is the status before, or ["Completed"]. *)
Definition status_step (before after : value) : Prop :=
  after = before \/ after = VStr "Completed".

(** The objects of the store are distinct and were allocated. *)
Definition objs_ok (w : World) : Prop :=
  NoDup (map obj (tasks w)) /\ Forall (fun t => (obj t < next_obj w)%nat) (tasks w).

(** Every object of [l'] is an object of [l], with the id it had there
    and a status that [status_step] allows. *)
Definition kept (l l' : list Task) : Prop :=
  forall t', t' ∈ l' ->
    exists t, t ∈ l /\ obj t = obj t' /\ task_id t' = task_id t
              /\ status_step (status t) (status t').

(** From [w] to [w']: objects are only allocated, and the objects of
    [w'] that existed in [w] are kept from [w]. *)
Definition evolves (w w' : World) : Prop :=
  (next_obj w <= next_obj w')%nat
  /\ kept (tasks w) (filter (fun t => (obj t < next_obj w)%nat) (tasks w')).

(** ** Stores used as examples *)



(** A first run without a file that adds two tasks, and one that adds a
    task without due date. *)
Definition store_two : World :=
  add_all [(VStr "Finish project", VInt 1, Datetime (mkDatetime 2024 5 12 9 30 0 0));
           (VStr "Go grocery shopping", VInt 3, VNone)]
    (fst (TaskManager_init NoFile true true)).

Definition store_no_due : World :=
  add_all [(VStr "Go grocery shopping", VInt 3, VNone)]
    (fst (TaskManager_init NoFile true true)).

(** Sixty-four tasks added to an empty store: the first with priority 16
    and a text as its due date, then priorities 33 to 63, then 0 to 31,
    these without due date. *)
Definition store_sixty_four : World :=
  add_all ((VStr "task", VInt 16, VStr "2024-06-01")
           :: map (fun p => (VStr "task", VInt p, VNone)) (seqZ 33 31 ++ seqZ 0 32))
    (fst (TaskManager_init NoFile true true)).

(** ** The driver *)

(** The block under [if __name__ == "__main__"].  [datetime.now()] is
    read twice; [now1] and [now2] are the two readings. *)
Definition main (now1 now2 : datetime) (f : file) (r wr : bool) : World * option exn :=
  match TaskManager_init f r wr with
  | (w, Some e) => (w, Some e)
  | (w, None) =>
      match add_days now1 2 with
      | Raise e => (w, Some e)
      | Ok d1 =>
          let w := add_task (VStr "Finish project") (VInt 1) (Datetime d1) w in
          let w := add_task (VStr "Go grocery shopping") (VInt 3) VNone w in
          match add_days now2 1 with
          | Raise e => (w, Some e)
          | Ok d2 =>
              let w := add_task (VStr "Call mom") (VInt 2) (Datetime d2) w in
              let w := prioritize_tasks w in
              match list_tasks w with
              | (w, Some e) => (w, Some e)
              | (w, None) =>
                  let w := mark_task_complete (VInt 1) w in
                  match list_tasks w with
                  | (w, Some e) => (w, Some e)
                  | (w, None) => list_tasks (remove_task (VInt 2) w)
                  end
              end
          end
      end
  end.

(** ** Further notions *)

(** The file holds what [save_tasks] writes for the tasks in memory. *)
Definition synced (w : World) : Prop :=
  disk w = Doc (DList (map task_dict (tasks w))).


(** A due date that is absent or a datetime. *)
Definition due_typed (t : Task) : bool :=
  match due_date t with
  | Plain DNone | Datetime _ => true
  | _ => false
  end.

(** A due date that [list_tasks] can print: a datetime, or a value that
    counts as false ([None], [0], [""], ...). *)
Definition listable (t : Task) : bool :=
  match due_date t with
  | Datetime _ => true
  | v => negb (truthy v)
  end.

(** The line [list_tasks] prints for a task with such a due date. *)
Definition line (t : Task) : message :=
  MsgLine (task_id t) (name t) (priority t)
    (match due_date t with
     | Datetime dt => Some (year dt, month dt, day dt)
     | Plain _ => None
     end)
    (status t).

(** What [load_tasks] makes of one record. *)
Definition loaded_from (td : data) (t : Task) : Prop :=
  subscript td "task_id" = Ok (encode (task_id t))
  /\ subscript td "name" = Ok (encode (name t))
  /\ subscript td "priority" = Ok (encode (priority t))
  /\ subscript td "status" = Ok (encode (status t))
  /\ (exists tid nm pr st, task_id t = Plain tid /\ name t = Plain nm
                           /\ priority t = Plain pr /\ status t = Plain st)
  /\ ((subscript td "due_date" = Ok (DStr "None") /\ due_date t = VNone)
      \/ exists s dt, subscript td "due_date" = Ok (DStr s) /\ strptime s = Ok dt
                      /\ due_date t = Datetime dt).

(** ** A bounded check *)

(** [f] holds on the [2 ^ k] integers from [lo] on. *)
Fixpoint all_in (k : nat) (lo : Z) (f : Z -> bool) : bool :=
  match k with
  | O => f lo
  | S k' => all_in k' lo f && all_in k' (lo + 2 ^ Z.of_nat k') f
  end.

(** The month and the day of the [n]-th day (from 0) of a year, as
    [ord2ymd] computes them at its end. *)
Definition month_day (n : Z) (leapyear : bool) : Z * Z :=
  let m := Z.shiftr (n + 50) 5 in
  let preceding := DAYS_BEFORE_MONTH m + (if (2 <? m) && leapyear then 1 else 0) in
  let '(m, preceding) :=
    if n <? preceding
    then (m - 1,
          preceding - (DAYS_IN_MONTH (m - 1)
                       + (if (m - 1 =? 2) && leapyear then 1 else 0)))
    else (m, preceding) in
  (m, n - preceding + 1).

(** [month_day] gives a day of a month, the [n]-th of the year. *)
Definition month_day_ok (leapyear : bool) (n : Z) : bool :=
  if n <? 365 + (if leapyear then 1 else 0) then
    let '(m, d) := month_day n leapyear in
    (1 <=? m) && (m <=? 12) && (1 <=? d)
    && (d <=? DAYS_IN_MONTH m + (if (m =? 2) && leapyear then 1 else 0))
    && (DAYS_BEFORE_MONTH m + (if (2 <? m) && leapyear then 1 else 0) + d =? n + 1)
  else true.

(** ** The text of a date *)

(** The character of a decimal digit. *)
Definition digit_char (d : Z) : ascii := ascii_of_N (48 + Z.to_N d).

(** The four digits of [n], most significant first. *)
Definition digits4 (n : Z) : string :=
  String (digit_char (n / 1000)) (String (digit_char (n / 100 mod 10))
    (String (digit_char (n / 10 mod 10)) (String (digit_char (n mod 10)) EmptyString))).

(** ["%04d" % n] is [digits4 n]. *)
Definition fmt4_ok (n : Z) : bool :=
  if n <=? 9999 then String.eqb (fmt_d 4 n) (digits4 n) else true.

(** The text ["%04d-%02d-%02d" % (y, m, d)]. *)
Definition date_text (y m d : Z) : string :=
  fmt_d 4 y +:+ "-" +:+ fmt_d 2 m +:+ "-" +:+ fmt_d 2 d.

(** * Properties *)

(** ** Lexicographic order on integer keys *)

Lemma lex_ltb_irrefl (a : list Z) : lex_ltb a a = false.
Proof. induction a as [|x a IH]; simpl; [done|]. by rewrite Z.eqb_refl. Qed.

Lemma lex_ltb_trans (a b c : list Z) :
  lex_ltb a b = true -> lex_ltb b c = true -> lex_ltb a c = true.
Proof.
  revert b c. induction a as [|x a IH]; intros [|y b] [|z c]; simpl; try done.
  destruct (Z.eqb_spec x y), (Z.eqb_spec y z), (Z.eqb_spec x z);
    subst; rewrite ?Z.ltb_lt; try lia; eauto.
Qed.

Lemma lex_ltb_total (a b : list Z) :
  lex_ltb a b = false -> lex_ltb b a = false -> a = b.
Proof.
  revert b. induction a as [|x a IH]; intros [|y b]; simpl; try done.
  destruct (Z.eqb_spec x y) as [->|Hxy].
  - rewrite Z.eqb_refl. intros H1 H2. f_equal. by apply IH.
  - destruct (Z.eqb_spec y x); [congruence|]. lia.
Qed.


Lemma key_le_trans (a b c : Task) : key_le a b -> key_le b c -> key_le a c.
Proof.
  unfold key_le. intros Hab Hbc.
  destruct (lex_ltb (zkey c) (zkey a)) eqn:Hca; [|done].
  destruct (lex_ltb (zkey b) (zkey c)) eqn:Hcb.
  - by rewrite (lex_ltb_trans _ _ _ Hcb Hca) in Hab.
  - rewrite <- (lex_ltb_total _ _ Hbc Hcb) in Hab. congruence.
Qed.

(** ** The stable sort by integer keys *)

Lemma insert_by_perm (x : Task) (l : list Task) : insert_by x l ≡ₚ x :: l.
Proof.
  induction l as [|y l IH]; cbn [insert_by sort_by foldr]; [reflexivity|].
  destruct (lex_ltb (zkey y) (zkey x)); [|reflexivity]. rewrite IH. apply Permutation_swap.
Qed.











(** ** The keys of typed tasks *)



Lemma Forall_typed_insert_by (x : Task) (l : list Task) :
  typed x = true -> Forall (fun t => typed t = true) l ->
  Forall (fun t => typed t = true) (insert_by x l).
Proof. intros Hx Hl. rewrite insert_by_perm. by constructor. Qed.


(** ** [list.sort] rearranges, whether or not it raises *)

Lemma binarysort_perm (s todo : list Task) : fst (binarysort s todo) ≡ₚ s ++ todo.
Proof.
  revert s. induction todo as [|pivot todo IH]; intros s; cbn [binarysort].
  - by rewrite app_nil_r.
  - destruct (bisect _ _ _ _ _) as [l|e]; [|reflexivity].
    rewrite IH. rewrite <- (take_drop (Z.to_nat l) s) at 3. solve_Permutation.
Qed.

Lemma written_items (xs : list Task) (r : merging) :
  (written xs r).1.1 = xs ++ r.1.1.
Proof. by destruct r as [[l e] mg]. Qed.

(** Splits [a] into the part before position [k] and the rest. *)
Ltac split_at k a :=
  let H := fresh "H" in
  let ta := fresh "ta" in
  let da := fresh "da" in
  assert (H : a = take k a ++ drop k a) by (symmetry; apply take_drop);
  remember (take k a) as ta eqn:Hta; remember (drop k a) as da eqn:Hda;
  clear Hta Hda; first [subst a | rewrite ?H].

Ltac split_all := repeat match goal with
  | |- context [take ?k ?l] => split_at k l
  | |- context [drop ?k ?l] => split_at k l
  | H : context [drop ?k ?l] |- _ => split_at k l
  end.

Ltac len0 := repeat match goal with
  | H : _ && _ = true |- _ => apply andb_prop in H as [? ?]
  | H : (length ?x =? 0)%nat = true |- _ => apply Nat.eqb_eq, nil_length_inv in H
  end; simplify_eq.

Ltac cases := repeat (case_bool_decide || case_match); simplify_eq.

Lemma lo_perm (fuel : nat) :
  (forall mg ac bc a b, (lo_single fuel mg ac bc a b).1.1 ≡ₚ a ++ b)
  /\ (forall mg a b, (lo_gallop fuel mg a b).1.1 ≡ₚ a ++ b).
Proof.
  induction fuel as [|fuel [IHs IHg]].
  - split; [intros mg ac bc a b|intros mg a b]; cbn; reflexivity.
  - split.
    + intros mg ac bc [|a0 a] [|b0 b]; try reflexivity.
      cbn [lo_single]. destruct (task_lt b0 a0) as [[]|]; [| |reflexivity];
        rewrite written_items; cases;
        rewrite ?IHs, ?IHg; cbn [fst snd]; solve_Permutation.
    + intros mg [|a0 a] [|b0 b]; try reflexivity.
      cbn [lo_gallop]. destruct (gallop_right _ _ _) as [k|]; [|reflexivity].
      set (a' := a0 :: a) in *. clearbody a'.
      rewrite written_items. cases;
        rewrite ?written_items, ?IHs, ?IHg; cbn [fst snd];
        split_all; len0; solve_Permutation.
Qed.

Lemma hi_perm (fuel : nat) :
  (forall mg ac bc ra rb, (hi_single fuel mg ac bc ra rb).1.1 ≡ₚ ra ++ rb)
  /\ (forall mg ra rb, (hi_gallop fuel mg ra rb).1.1 ≡ₚ ra ++ rb).
Proof.
  induction fuel as [|fuel [IHs IHg]].
  - split; [intros mg ac bc a b|intros mg a b]; cbn; solve_Permutation.
  - split.
    + intros mg ac bc [|a0 a] [|b0 b]; cbn [hi_single fst]; try solve_Permutation.
      destruct (task_lt b0 a0) as [[]|]; [| |cbn; solve_Permutation];
        rewrite written_items; cases;
        rewrite ?IHs, ?IHg; cbn [fst snd]; solve_Permutation.
    + intros mg [|a0 a] [|b0 b]; cbn [hi_gallop fst]; try solve_Permutation.
      destruct (gallop_right _ _ _) as [k|]; [|cbn; solve_Permutation].
      set (a' := a0 :: a) in *. clearbody a'.
      rewrite written_items. cases;
        rewrite ?written_items, ?IHs, ?IHg; cbn [fst snd];
        split_all; len0; solve_Permutation.
Qed.

Lemma merge_lo_perm (mg : Z) (a b : list Task) : (merge_lo mg a b).1.1 ≡ₚ a ++ b.
Proof.
  unfold merge_lo. destruct b as [|b0 b1]; [by rewrite app_nil_r|].
  rewrite written_items. cases; rewrite ?(proj1 (lo_perm _)); cbn [fst]; solve_Permutation.
Qed.

Lemma reversed_items (r : merging) : (reversed r).1.1 = reverse r.1.1.
Proof. by destruct r as [[l e] mg]. Qed.

Lemma between_items (xs ys : list Task) (r : merging) :
  (between xs ys r).1.1 = xs ++ r.1.1 ++ ys.
Proof. by destruct r as [[l e] mg]. Qed.

Lemma merge_hi_perm (mg : Z) (a b : list Task) : (merge_hi mg a b).1.1 ≡ₚ a ++ b.
Proof.
  unfold merge_hi. rewrite reversed_items, reverse_Permutation.
  transitivity (reverse a ++ reverse b); [|by rewrite !reverse_Permutation].
  destruct (reverse a) as [|a0 ra1]; [reflexivity|].
  rewrite written_items. cases; rewrite ?(proj1 (hi_perm _)); cbn [fst]; solve_Permutation.
Qed.

Lemma merge_at_perm (mg : Z) (a b : list Task) : (merge_at mg a b).1.1 ≡ₚ a ++ b.
Proof.
  unfold merge_at. cases; cbn [fst]; try reflexivity.
  all: rewrite between_items, ?merge_lo_perm, ?merge_hi_perm; split_all; solve_Permutation.
Qed.

Lemma pending_items_cons (r : list Task * Z) (p : pending) :
  pending_items (r :: p) = pending_items p ++ r.1.
Proof. reflexivity. Qed.

(** What a call of [merge_at] returned, as a permutation. *)
Ltac merged_perm := repeat match goal with
  | H : merge_at ?mg ?a ?b = (?m, _, _) |- _ =>
      let P := fresh "P" in
      pose proof (merge_at_perm mg a b) as P; rewrite H in P; cbn [fst] in P; clear H
  end.

Lemma collapse_power_perm (fuel : nat) (mg power : Z) (p : pending) :
  pending_items (collapse_power fuel mg power p).1.1 ≡ₚ pending_items p.
Proof.
  revert mg p. induction fuel as [|fuel IH]; intros mg p; [by destruct p|].
  cbn [collapse_power]. cases; cbn [fst]; try reflexivity; merged_perm;
    rewrite ?IH, !pending_items_cons; cbn [fst]; rewrite ?P; solve_Permutation.
Qed.

Lemma found_new_run_perm (mg listlen : Z) (p : pending) (n2 : Z) :
  pending_items (found_new_run mg listlen p n2).1.1 ≡ₚ pending_items p.
Proof.
  unfold found_new_run. destruct p as [|[r1 p1] p']; [reflexivity|].
  match goal with |- context [collapse_power ?f ?m ?pw ?p] =>
    pose proof (collapse_power_perm f m pw p) as H;
    destruct (collapse_power f m pw p) as [[q e] mg'] end.
  cbn [fst] in H. rewrite <- H. by cases.
Qed.

Lemma merge_force_collapse_perm (fuel : nat) (mg : Z) (p : pending) :
  pending_items (merge_force_collapse fuel mg p).1 ≡ₚ pending_items p.
Proof.
  revert mg p. induction fuel as [|fuel IH]; intros mg p; [by destruct p|].
  cbn [merge_force_collapse]. cases; cbn [fst]; try reflexivity; merged_perm;
    rewrite ?IH, !pending_items_cons; cbn [fst]; rewrite ?P; solve_Permutation.
Qed.

Lemma runs_perm (fuel : nat) (mg listlen minrun : Z) (p : pending) (rest : list Task) :
  (runs fuel mg listlen minrun p rest).1 ≡ₚ pending_items p ++ rest.
Proof.
  revert mg p rest. induction fuel as [|fuel IH]; intros mg p rest; [reflexivity|].
  cbn [runs]. destruct (count_run rest) as [[n desc]|]; [|reflexivity].
  set (run0 := if desc then reverse (take (Z.to_nat n) rest) else take (Z.to_nat n) rest).
  assert (H0 : run0 ++ drop (Z.to_nat n) rest ≡ₚ rest).
  { transitivity (take (Z.to_nat n) rest ++ drop (Z.to_nat n) rest); [|by rewrite take_drop].
    apply Permutation_app_tail.
    subst run0. destruct desc; [apply reverse_Permutation|reflexivity]. }
  revert H0. generalize run0 (drop (Z.to_nat n) rest). clear run0. intros run0 rest0 H0.
  match goal with |- context [binarysort ?s ?t] =>
    pose proof (binarysort_perm s t) as Hb; destruct (binarysort s t) as [run1 e1] end.
  cbn [fst] in Hb.
  assert (H1 : forall run e rest1,
    (if n <? minrun then (run1, e1, drop (Z.to_nat
       ((if n + Z.of_nat (length rest0) <=? minrun
         then n + Z.of_nat (length rest0) else minrun) - n)) rest0)
     else (run0, None, rest0)) = (run, e, rest1) -> run ++ rest1 ≡ₚ rest).
  { intros run e rest1 E. rewrite <- H0. destruct (n <? minrun); simplify_eq; [|reflexivity].
    rewrite Hb. split_all. solve_Permutation. }
  destruct (if n <? minrun then _ else _) as [[run e] rest1] eqn:E.
  clear E. pose proof (H1 _ _ _ eq_refl) as E. clear H1 Hb H0.
  destruct e; [cbn [fst]; by rewrite E|].
  match goal with |- context [found_new_run ?m ?l ?p ?n] =>
    pose proof (found_new_run_perm m l p n) as Hf;
    destruct (found_new_run m l p n) as [[q e] mg'] end.
  cbn [fst] in Hf. destruct e; [cbn [fst]; by rewrite Hf, E|].
  case_bool_decide as Hr.
  - match goal with |- context [merge_force_collapse ?f ?m ?p] =>
      pose proof (merge_force_collapse_perm f m p) as Hm;
      destruct (merge_force_collapse f m p) as [q' e'] end.
    cbn [fst] in *. rewrite Hm, pending_items_cons, Hf. cbn [fst].
    subst rest1. rewrite app_nil_r in E. by rewrite E.
  - rewrite IH, pending_items_cons, Hf. cbn [fst]. by rewrite <- E, (assoc (++)).
Qed.

Lemma list_sort_perm (l : list Task) : (list_sort l).1 ≡ₚ l.
Proof.
  unfold list_sort. case_match; [reflexivity|]. by rewrite runs_perm.
Qed.

(** ** Orders of the tasks of one key *)

#[export] Instance same_order_equiv : Equivalence same_order.
Proof.
  split.
  - by intros l k.
  - intros l r H k. by rewrite H.
  - intros l r s H1 H2 k. by rewrite H1, H2.
Qed.

Lemma same_order_app (l l' r r' : list Task) :
  same_order l l' -> same_order r r' -> same_order (l ++ r) (l' ++ r').
Proof. intros H1 H2 k. by rewrite !filter_app, H1, H2. Qed.

#[export] Instance same_order_app_proper : Proper (same_order ==> same_order ==> same_order) app.
Proof. intros l l' H1 r r' H2. by apply same_order_app. Qed.

#[export] Instance same_order_cons_proper (x : Task) : Proper (same_order ==> same_order) (cons x).
Proof. intros l l' H. by apply (same_order_app [x] [x]). Qed.

Lemma same_order_elem_of (l r : list Task) (x : Task) :
  same_order l r -> x ∈ l -> x ∈ r.
Proof.
  intros H Hx.
  assert (Hf : x ∈ filter (fun t => zkey t = zkey x) l) by (by apply list_elem_of_filter).
  rewrite (H (zkey x)) in Hf. by apply list_elem_of_filter in Hf as [_ ?].
Qed.

Lemma same_order_Forall (P : Task -> Prop) (l r : list Task) :
  same_order l r -> Forall P l -> Forall P r.
Proof.
  intros H. rewrite !Forall_forall. intros Hl x Hx. apply Hl.
  by apply (same_order_elem_of r l).
Qed.

#[export] Instance Forall_same_order (P : Task -> Prop) : Proper (same_order ==> iff) (Forall P).
Proof. intros l r H. split; by apply same_order_Forall. Qed.









(** ** The order of the keys *)


Lemma ltb_irrefl (x : Task) : ltb x x = false.
Proof. apply lex_ltb_irrefl. Qed.

Lemma ltb_trans (x y z : Task) : ltb x y = true -> ltb y z = true -> ltb x z = true.
Proof. apply lex_ltb_trans. Qed.





#[export] Instance key_le_transitive : Transitive key_le.
Proof. intros x y z. apply key_le_trans. Qed.

#[export] Instance gtb_transitive : Transitive (fun a b => ltb b a = true).
Proof. intros x y z H1 H2. by apply ltb_trans with y. Qed.

#[export] Instance ltb_transitive : Transitive (fun a b => ltb a b = true).
Proof. intros x y z H1 H2. by apply ltb_trans with y. Qed.



(** ** [count_run] on typed tasks *)






(** ** Positions in a sorted list *)







(** ** The binary search of [binarysort] *)




(** ** The two loops of the gallops *)





(** ** [gallop_left] and [gallop_right] on a sorted list of typed tasks *)



(** ** Steps of a merge *)




Section Merged.
Variable R : relation Task.













End Merged.

(** ** [merge_lo] on sorted runs of typed tasks *)








(** ** [merge_hi] on sorted runs of typed tasks *)











(** ** [merge_at] on sorted runs of typed tasks *)



(** ** The runs that wait to be merged *)






(** ** [list.sort] on typed tasks is the stable sort by integer keys *)




(** ** What the operations do to [self.tasks] *)

Lemma tasks_save_tasks (w : World) : tasks (save_tasks w) = tasks w.
Proof. unfold save_tasks. by destruct (can_write w). Qed.

Lemma next_obj_save_tasks (w : World) : next_obj (save_tasks w) = next_obj w.
Proof. unfold save_tasks. by destruct (can_write w). Qed.


Lemma datetime_fields_inj (a b : datetime) :
  datetime_fields a = datetime_fields b -> a = b.
Proof. destruct a, b. unfold datetime_fields; cbn. congruence. Qed.


(** ** Prioritizing *)







(** ** Adding *)

Lemma tasks_add_task (nm pr due : value) (w : World) :
  tasks (add_task nm pr due w)
  = tasks w ++ [Task_init (next_obj w) (VInt (Z.of_nat (length (tasks w)) + 1)) nm pr due].
Proof. unfold add_task. by rewrite tasks_save_tasks. Qed.

Lemma add_all_cons (nm pr due : value) (specs : list (value * value * value)) (w : World) :
  add_all ((nm, pr, due) :: specs) w = add_all specs (add_task nm pr due w).
Proof. reflexivity. Qed.

Lemma add_all_tasks (specs : list (value * value * value)) (w : World) :
  map task_id (tasks (add_all specs w))
  = map task_id (tasks w)
    ++ map (fun i => VInt (Z.of_nat i)) (seq (S (length (tasks w))) (length specs))
  /\ map (fun t => (name t, priority t, due_date t)) (tasks (add_all specs w))
     = map (fun t => (name t, priority t, due_date t)) (tasks w) ++ specs.
Proof.
  revert w. induction specs as [|[[nm pr] due] specs IH]; intros w.
  - cbn. by rewrite !app_nil_r.
  - rewrite add_all_cons. destruct (IH (add_task nm pr due w)) as [IH1 IH2].
    rewrite IH1, IH2, tasks_add_task, !map_app, length_app, <- !app_assoc. cbn.
    split; [|done]. do 4 f_equal; [lia|]. f_equal. lia.
Qed.

(** C4: [N] calls of [add_task] on a store without tasks assign the ids
    [1, 2, ..., N] in the order of the calls: the tasks of the store are
    the added ones in call order, and their ids count up from 1. *)
Theorem add_task_ids (specs : list (value * value * value))
    (f : file) (r wr : bool) (tr : list event) (n : nat) :
  let w := add_all specs (mkWorld [] f r wr tr n) in
  map task_id (tasks w) = map (fun i => VInt (Z.of_nat i)) (seq 1 (length specs))
  /\ map (fun t => (name t, priority t, due_date t)) (tasks w) = specs.
Proof. exact (add_all_tasks specs (mkWorld [] f r wr tr n)). Qed.

Example add_task_ids_three :
  map task_id (tasks (add_all [(VStr "a", VInt 5, VNone); (VStr "b", VInt 5, VNone);
                               (VStr "c", VInt 0, VNone)]
                        (fst (TaskManager_init NoFile true true))))
  = [VInt 1; VInt 2; VInt 3].
Proof. reflexivity. Qed.

(** ** Text of a datetime against the format of [strptime] *)

Lemma consumes_mono {A} (n m : nat) (p : matcher A) :
  (n <= m)%nat -> consumes n p -> consumes m p.
Proof. intros Hnm Hp s a r Hin. specialize (Hp s a r Hin). lia. Qed.

Lemma consumes_range (lo hi : Z) : consumes 1 (re_range lo hi).
Proof.
  intros [|c s] a r; cbn; [by rewrite elem_of_nil|].
  destruct (digit_of c); [|by rewrite elem_of_nil].
  destruct ((lo <=? z) && (z <=? hi)); [|by rewrite elem_of_nil].
  rewrite list_elem_of_singleton. intros [= _ <-]. lia.
Qed.

Lemma consumes_char (c : ascii) : consumes 1 (re_char c).
Proof.
  intros [|c' s] a r; cbn; [by rewrite elem_of_nil|].
  destruct (Ascii.eqb c c'); [|by rewrite elem_of_nil].
  rewrite list_elem_of_singleton. intros [= _ <-]. lia.
Qed.

Lemma consumes_seq {A B C} (f : A -> B -> C) (n m : nat) (p : matcher A) (q : matcher B) :
  consumes n p -> consumes m q -> consumes (n + m) (re_seq f p q).
Proof.
  intros Hp Hq s c r. unfold re_seq. rewrite list_elem_of_bind.
  intros [[a r1] [Hin H1]]. rewrite list_elem_of_bind in Hin.
  destruct Hin as [[b r2] [Hin H2]]. rewrite list_elem_of_singleton in Hin.
  injection Hin as _ <-. specialize (Hp _ _ _ H1). specialize (Hq _ _ _ H2). lia.
Qed.

Lemma consumes_alt {A} (n : nat) (p q : matcher A) :
  consumes n p -> consumes n q -> consumes n (re_alt p q).
Proof.
  intros Hp Hq s a r. unfold re_alt. rewrite elem_of_app. intros [H|H]; eauto.
Qed.

Lemma consumes_two (f : Z -> Z -> Z) (a b c d : Z) :
  consumes 2 (re_seq f (re_range a b) (re_range c d)).
Proof. apply (consumes_seq f 1 1); apply consumes_range. Qed.

Lemma consumes_date : consumes 10 re_date.
Proof.
  unfold re_date.
  apply (consumes_seq _ 4 6).
  { unfold re_Y. apply (consumes_seq _ 3 1); [|apply consumes_range].
    apply (consumes_seq _ 2 1); [|apply consumes_range]. apply consumes_two. }
  apply (consumes_seq _ 1 5); [apply consumes_char|].
  apply (consumes_seq _ 2 3).
  { unfold re_m. repeat apply consumes_alt; try apply consumes_two.
    apply (consumes_mono 1); [lia|apply consumes_range]. }
  apply (consumes_seq _ 1 2); [apply consumes_char|].
  unfold re_d. repeat apply consumes_alt; try apply consumes_two.
  - apply (consumes_mono 1); [lia|apply consumes_range].
  - apply (consumes_seq _ 1 1); [apply consumes_char|apply consumes_range].
Qed.

(** A text of more than ten characters is never accepted. *)
Lemma strptime_long (s : string) :
  (10 < String.length s)%nat -> strptime s = Raise ValueError.
Proof.
  intros Hlen. unfold strptime.
  destruct (re_date s) as [|[[[y m] d] rest] l] eqn:E; [done|].
  assert (Hin : (y, m, d, rest) ∈ re_date s) by (rewrite E; left).
  apply consumes_date in Hin. destruct rest; [cbn in Hin; lia|done].
Qed.

Lemma string_length_app (a b : string) :
  String.length (a +:+ b) = (String.length a + String.length b)%nat.
Proof.
  induction a as [|c a IH]; [done|].
  change (String c a +:+ b) with (String c (a +:+ b)).
  cbn [String.length]. by rewrite IH.
Qed.

Lemma fmt_d_length (w : nat) (n : Z) : (w <= String.length (fmt_d w n))%nat.
Proof.
  unfold fmt_d, zfill. rewrite string_length_app.
  assert (H : forall k, String.length (String.string_of_list_ascii (replicate k "0"%char)) = k).
  { induction k as [|k IH]; cbn; [done|]. by rewrite IH. }
  rewrite H. lia.
Qed.

(** [str] of a datetime has at least the 19 characters of
    [YYYY-MM-DD HH:MM:SS]. *)
Lemma str_datetime_length (dt : datetime) : (19 <= String.length (str_datetime dt))%nat.
Proof.
  unfold str_datetime. rewrite !string_length_app.
  pose proof (fmt_d_length 4 (year dt)). pose proof (fmt_d_length 2 (month dt)).
  pose proof (fmt_d_length 2 (day dt)). pose proof (fmt_d_length 2 (hour dt)).
  pose proof (fmt_d_length 2 (minute dt)). pose proof (fmt_d_length 2 (second dt)).
  cbn [String.length]. lia.
Qed.

Lemma strptime_str_datetime (dt : datetime) :
  strptime (str_datetime dt) = Raise ValueError.
Proof. apply strptime_long. pose proof (str_datetime_length dt). lia. Qed.

Lemma str_datetime_not_None (dt : datetime) :
  String.eqb (str_datetime dt) "None" = false.
Proof.
  apply String.eqb_neq. intros E. pose proof (str_datetime_length dt) as H.
  rewrite E in H. cbn in H. lia.
Qed.

(** ** Saving, then loading *)

Lemma load_args_task_dict_no_due (t : Task) :
  due_date t = VNone -> load_args (task_dict t) = Raise TypeError.
Proof. intros H. unfold load_args, task_dict. rewrite H. reflexivity. Qed.

Lemma load_args_task_dict_due (t : Task) (dt : datetime) :
  due_date t = Datetime dt -> load_args (task_dict t) = Raise ValueError.
Proof.
  intros H. unfold load_args, task_dict. rewrite H.
  cbn [subscript dict_get String.eqb Ascii.eqb Bool.eqb encode result_bind data_eq].
  rewrite str_datetime_not_None. cbn [negb]. by rewrite strptime_str_datetime.
Qed.

(** X10: What was saved for a store with at least one task cannot be loaded:
    the first record already raises, [TypeError] when the task has no due
    date ([null] is not the text ["None"] and is handed to [strptime]),
    [ValueError] when it has one (the text carries the time of day). *)
Lemma load_after_save_raises (w : World) (t : Task) (l : list Task) (wr : bool) :
  can_write w = true -> tasks w = t :: l ->
  (due_date t = VNone
   -> snd (TaskManager_init (disk (save_tasks w)) true wr) = Some TypeError)
  /\ (forall dt, due_date t = Datetime dt
   -> snd (TaskManager_init (disk (save_tasks w)) true wr) = Some ValueError).
Proof.
  intros Hw Ht. unfold save_tasks. rewrite Hw, Ht.
  unfold TaskManager_init, load_tasks.
  cbn [write_file disk can_read iterate map load_loop].
  split.
  - intros H. by rewrite (load_args_task_dict_no_due t H).
  - intros dt H. by rewrite (load_args_task_dict_due t dt H).
Qed.

Lemma save_empty_then_load (w : World) (wr : bool) :
  can_write w = true -> tasks w = [] ->
  exists w', TaskManager_init (disk (save_tasks w)) true wr = (w', None) /\ tasks w' = [].
Proof.
  intros Hw Ht. unfold save_tasks. rewrite Hw, Ht. by eexists.
Qed.

(** C1 fails on the code: after [save_tasks] on a store with the two
    tasks below, the constructor does not return a store, it raises
    [ValueError]; with a task without due date it raises [TypeError]. *)
Theorem save_then_construct_raises :
  map fields (tasks store_two)
  = [(VInt 1, VStr "Finish project", VInt 1,
      Datetime (mkDatetime 2024 5 12 9 30 0 0), VStr "Pending");
     (VInt 2, VStr "Go grocery shopping", VInt 3, VNone, VStr "Pending")]
  /\ snd (TaskManager_init (disk (save_tasks store_two)) true true) = Some ValueError
  /\ snd (TaskManager_init (disk (save_tasks store_no_due)) true true) = Some TypeError.
Proof. repeat split; vm_compute; reflexivity. Qed.

(** C2 fails on the code: [save_tasks] writes a due date with its time
    of day, and an absent due date as [null]. *)
Theorem save_writes_time_and_null :
  disk (save_tasks store_two)
  = Doc (DList
      [DDict [("task_id", DInt 1); ("name", DStr "Finish project"); ("priority", DInt 1);
              ("due_date", DStr "2024-05-12 09:30:00"); ("status", DStr "Pending")];
       DDict [("task_id", DInt 2); ("name", DStr "Go grocery shopping"); ("priority", DInt 3);
              ("due_date", DNone); ("status", DStr "Pending")]])
  /\ encode (Datetime (mkDatetime 2024 5 12 0 0 0 0)) = DStr "2024-05-12 00:00:00"
  /\ encode VNone <> DStr "None".
Proof. repeat split; try (vm_compute; reflexivity). discriminate. Qed.

(** No datetime is written as the ten characters [YYYY-MM-DD]. *)
Lemma encode_datetime_long (dt : datetime) :
  exists s, encode (Datetime dt) = DStr s /\ (19 <= String.length s)%nat.
Proof. eexists. split; [reflexivity|]. apply str_datetime_length. Qed.

(** ** Loading *)

(** C3 fails on the code: these contents of the file make the
    constructor raise: a record without its keys ([KeyError]), a due date
    that is not a date ([ValueError]), a due date that is [null], and a
    document that is a number ([TypeError]). *)
Theorem load_malformed_raises :
  snd (TaskManager_init (Doc (DList [DDict [("task_id", DInt 1)]])) true true) = Some KeyError
  /\ snd (TaskManager_init
            (Doc (DList [record (DInt 1) (DStr "a") (DInt 1) (DStr "tomorrow") (DStr "Pending")]))
            true true) = Some ValueError
  /\ snd (TaskManager_init
            (Doc (DList [record (DInt 1) (DStr "a") (DInt 1) DNone (DStr "Pending")]))
            true true) = Some TypeError
  /\ snd (TaskManager_init (Doc (DInt 4)) true true) = Some TypeError.
Proof. repeat split; vm_compute; reflexivity. Qed.

(** What the two handlers do cover. *)
Lemma load_caught (r wr : bool) :
  TaskManager_init NoFile r wr = (mkWorld [] NoFile r wr [] 0, None)
  /\ TaskManager_init Garbled r wr = (mkWorld [] Garbled r wr [Print MsgLoadError] 0, None)
  /\ forall d, TaskManager_init (Doc d) false wr
               = (mkWorld [] (Doc d) false wr [Print MsgLoadError] 0, None).
Proof. by repeat split. Qed.

(** [postpone] past the last day of the calendar raises as well. *)
Example postpone_overflow :
  snd (run (CallPostpone 0 1)
         (mkWorld [mkTask 0 (VInt 1) (VStr "a") (VInt 1)
                     (Datetime (mkDatetime 9999 12 31 0 0 0 0)) (VStr "Pending")]
            NoFile true true [] 1)) = Some OverflowError.
Proof. vm_compute. reflexivity. Qed.

(** Whenever the loop finishes, each loaded task carries the status of
    its record, whatever that value is. *)
Lemma load_loop_statuses (items : list data) (w w' : World) :
  load_loop items w = (w', None) ->
  exists new : list Task,
    tasks w' = tasks w ++ new
    /\ Forall2 (fun td t => exists st, subscript td "status" = Ok st /\ status t = Plain st)
         items new.
Proof.
  revert w. induction items as [|td items IH]; intros w; cbn [load_loop].
  - intros [= <-]. exists []. by rewrite app_nil_r.
  - destruct (load_args td) as [[[[tid nm] pr] due]|]; [|done].
    destruct (subscript td "status") as [st|] eqn:Est; [|done].
    intros (new & Hnew & HF)%IH. eexists (_ :: new).
    split; [by rewrite Hnew; cbn [tasks set_tasks alloc]; rewrite <- app_assoc|].
    constructor; [|done]. by exists st.
Qed.

(** C10: [load_tasks] stores the status of a record as it finds it.  For
    every status [st] the record below loads, and the task has status
    [st]; so a file can bring a status that is neither ["Pending"] nor
    ["Completed"] into the store. *)
Theorem load_status_verbatim :
  (forall tid nm pr st : data,
      exists (w : World) (t : Task),
        TaskManager_init (Doc (DList [record tid nm pr (DStr "None") st])) true true = (w, None)
        /\ tasks w = [t] /\ status t = Plain st)
  /\ exists (d : data) (w : World) (t : Task),
      TaskManager_init (Doc d) true true = (w, None) /\ t ∈ tasks w
      /\ status t <> VStr "Pending" /\ status t <> VStr "Completed".
Proof.
  split.
  - intros tid nm pr st. by eexists _, _.
  - exists (DList [record (DInt 1) (DStr "a") (DInt 1) (DStr "None") (DStr "Bogus")]).
    eexists _, _. split; [reflexivity|]. split; [by left|]. by split.
Qed.

(** ** Looking up, removing and completing *)

Lemma find_task_None (tid : value) (l : list Task) :
  (forall t, t ∈ l -> py_eq (task_id t) tid = false) -> find_task tid l = None.
Proof.
  unfold find_task. induction l as [|x l IH]; intros H; [done|]. cbn [find].
  rewrite (H x) by left. apply IH. intros t Ht. apply H. by right.
Qed.

Lemma find_task_Some (tid : value) (l : list Task) (t : Task) :
  find_task tid l = Some t -> t ∈ l /\ py_eq (task_id t) tid = true.
Proof.
  unfold find_task. induction l as [|x l IH]; [done|]. cbn [find].
  destruct (py_eq (task_id x) tid) eqn:E.
  - intros [= <-]. split; [left|done].
  - intros H. destruct (IH H). split; [by right|done].
Qed.

(** C7: when no task of the store has an id equal to [tid],
    [remove_task] and [mark_task_complete] print the not-found message
    and do nothing else: the tasks and the file are as before and nothing
    was written. *)
Theorem unknown_id_no_op (tid : value) (w : World) :
  (forall t, t ∈ tasks w -> py_eq (task_id t) tid = false) ->
  (tasks (remove_task tid w) = tasks w
   /\ disk (remove_task tid w) = disk w
   /\ trace (remove_task tid w) = trace w ++ [Print (MsgNotFound tid)])
  /\ (tasks (mark_task_complete tid w) = tasks w
      /\ disk (mark_task_complete tid w) = disk w
      /\ trace (mark_task_complete tid w) = trace w ++ [Print (MsgNotFound tid)]).
Proof.
  intros H. apply find_task_None in H.
  unfold remove_task, mark_task_complete, get_task_by_id. rewrite H. by repeat split.
Qed.

Lemma unknown_id_no_op_witness :
  (forall t, t ∈ tasks store_two -> py_eq (task_id t) (VInt 7) = false)
  /\ trace (remove_task (VInt 7) store_two) = trace store_two ++ [Print (MsgNotFound (VInt 7))]
  /\ disk (mark_task_complete (VInt 7) store_two) = disk store_two.
Proof.
  assert (H : forall t, t ∈ tasks store_two -> py_eq (task_id t) (VInt 7) = false).
  { intros t Ht. vm_compute in Ht. by repeat (inversion_clear Ht as [|? ? ? Ht']; [done|]; rename Ht' into Ht); inversion Ht. }
  split; [exact H|].
  destruct (unknown_id_no_op (VInt 7) store_two H) as [(_ & _ & H1) (_ & H2 & _)].
  split; [exact H1|exact H2].
Defined.

(** The scenario of the driver: three adds, then prioritize, complete
    task 1 and remove task 2. *)
Example driver_scenario :
  let w := run_all [CallPrioritizeTasks; CallMarkTaskComplete (VInt 1); CallRemoveTask (VInt 2)]
             (add_all [(VStr "Finish project", VInt 1, Datetime (mkDatetime 2024 5 12 9 30 0 0));
                       (VStr "Go grocery shopping", VInt 3, VNone);
                       (VStr "Call mom", VInt 2, Datetime (mkDatetime 2024 5 11 9 30 0 0))]
                (fst (TaskManager_init NoFile true true))) in
  map (fun t => (task_id t, name t, status t)) (tasks w)
  = [(VInt 1, VStr "Finish project", VStr "Completed");
     (VInt 3, VStr "Call mom", VStr "Pending")].
Proof. vm_compute. reflexivity. Qed.

(** A known id: the task goes, the file is rewritten without it. *)
Example remove_known :
  map name (tasks (remove_task (VInt 1) store_two)) = [VStr "Go grocery shopping"]
  /\ disk (remove_task (VInt 1) store_two)
     = Doc (DList [record (DInt 2) (DStr "Go grocery shopping") (DInt 3) DNone (DStr "Pending")]).
Proof. split; vm_compute; reflexivity. Qed.

(** C9: ids come from the length of the list.  After two adds and the
    removal of task 1, the store holds task 2; the next add assigns 2
    again, to a new object. *)
Theorem id_reused_after_remove :
  exists (cs : list call) (nm pr due : value),
    Forall (fun c => match c with
                     | CallAddTask _ _ _ | CallRemoveTask _ => True
                     | _ => False
                     end) cs
    /\ let w := run_all cs (fst (TaskManager_init NoFile true true)) in
       let w' := add_task nm pr due w in
       exists old new : Task,
         old ∈ tasks w /\ tasks w' = tasks w ++ [new]
         /\ obj new <> obj old /\ task_id new = task_id old.
Proof.
  exists [CallAddTask (VStr "a") (VInt 1) VNone; CallAddTask (VStr "b") (VInt 1) VNone;
          CallRemoveTask (VInt 1)], (VStr "c"), (VInt 1), VNone.
  split; [repeat constructor|].
  eexists _, _. split; [vm_compute; left|]. split; [vm_compute; reflexivity|].
  split; [vm_compute; lia|reflexivity].
Qed.

(** ** Identity and status of a task over a run *)

Lemma status_step_refl (v : value) : status_step v v.
Proof. by left. Qed.

Lemma status_step_trans (a b c : value) :
  status_step a b -> status_step b c -> status_step a c.
Proof. unfold status_step. intros [->| ->] [->| ->]; auto. Qed.

Lemma kept_refl (l : list Task) : kept l l.
Proof. intros t Ht. exists t. by repeat split; try apply status_step_refl. Qed.

Lemma kept_trans (l1 l2 l3 : list Task) : kept l1 l2 -> kept l2 l3 -> kept l1 l3.
Proof.
  intros H12 H23 t3 H3. destruct (H23 t3 H3) as (t2 & H2 & Ho2 & Hi2 & Hs2).
  destruct (H12 t2 H2) as (t1 & H1 & Ho1 & Hi1 & Hs1).
  exists t1. repeat split; [done|congruence|congruence|].
  by apply status_step_trans with (status t2).
Qed.

Lemma kept_sub (l l' : list Task) : l' ⊆ l -> kept l l'.
Proof. intros H t Ht. exists t. repeat split; [by apply H|apply status_step_refl]. Qed.

Lemma evolves_refl (w : World) : evolves w w.
Proof. split; [done|]. apply kept_sub. intros t. rewrite list_elem_of_filter. tauto. Qed.

Lemma evolves_trans (w1 w2 w3 : World) : evolves w1 w2 -> evolves w2 w3 -> evolves w1 w3.
Proof.
  intros [Hn12 H12] [Hn23 H23]. split; [lia|].
  intros t3. rewrite list_elem_of_filter. intros [Hlt H3].
  destruct (H23 t3) as (t2 & H2 & Ho2 & Hi2 & Hs2).
  { rewrite list_elem_of_filter. split; [lia|done]. }
  destruct (H12 t2) as (t1 & H1 & Ho1 & Hi1 & Hs1).
  { rewrite list_elem_of_filter. split; [lia|done]. }
  exists t1. repeat split; [done|congruence|congruence|].
  by apply status_step_trans with (status t2).
Qed.

(** A step that allocates nothing and keeps the objects. *)
Lemma evolves_kept (w w' : World) :
  next_obj w' = next_obj w -> kept (tasks w) (tasks w') -> evolves w w'.
Proof.
  intros Hn Hk. split; [lia|]. intros t. rewrite list_elem_of_filter.
  intros [_ Ht]. by apply Hk.
Qed.

Lemma objs_ok_kept (w w' : World) :
  next_obj w' = next_obj w -> map obj (tasks w') ⊆+ map obj (tasks w) ->
  objs_ok w -> objs_ok w'.
Proof.
  intros Hn Hsub [Hnd Hlt]. split.
  - apply submseteq_Permutation in Hsub as [k Hk]. rewrite Hk in Hnd.
    by apply NoDup_app in Hnd as [? _].
  - rewrite Hn. rewrite Forall_forall in Hlt. apply Forall_forall. intros t Ht.
    assert (Ho : obj t ∈ map obj (tasks w)).
    { eapply elem_of_submseteq; [|exact Hsub]. apply list_elem_of_fmap. eauto. }
    apply list_elem_of_fmap in Ho as (t0 & -> & Ht0). by apply Hlt.
Qed.

Lemma quiet_step (w w' : World) :
  next_obj w' = next_obj w -> map obj (tasks w') ⊆+ map obj (tasks w) ->
  kept (tasks w) (tasks w') ->
  objs_ok w -> objs_ok w' /\ evolves w w'.
Proof.
  intros Hn Hsub Hk Hok. split; [by apply (objs_ok_kept w)|by apply evolves_kept].
Qed.

Lemma same_tasks_step (w w' : World) :
  next_obj w' = next_obj w -> tasks w' = tasks w ->
  objs_ok w -> objs_ok w' /\ evolves w w'.
Proof.
  intros Hn Ht. apply quiet_step; [done|rewrite Ht; reflexivity|rewrite Ht; apply kept_refl].
Qed.

(** Closes the cases in which an operation only prints. *)
Ltac unchanged := by apply same_tasks_step.

(** A step that appends one freshly allocated object. *)
Lemma append_step (w w' : World) (t : Task) :
  next_obj w' = S (next_obj w) -> tasks w' = tasks w ++ [t] -> obj t = next_obj w ->
  objs_ok w -> objs_ok w' /\ evolves w w'.
Proof.
  intros Hn Ht Ho [Hnd Hlt]. split; [split|split].
  - rewrite Ht, map_app. apply NoDup_app. split; [done|]. split; [|apply NoDup_singleton].
    intros o Hin. cbn. rewrite list_elem_of_singleton. intros ->.
    apply list_elem_of_fmap in Hin as (t0 & Heq & Ht0).
    rewrite Forall_forall in Hlt. specialize (Hlt t0 Ht0). lia.
  - rewrite Ht, Hn. apply Forall_app. split.
    + eapply Forall_impl; [exact Hlt|]. cbn. lia.
    + constructor; [lia|constructor].
  - lia.
  - apply kept_sub. intros x. rewrite list_elem_of_filter, Ht, elem_of_app.
    rewrite list_elem_of_singleton. intros [Hx [?| ->]]; [done|lia].
Qed.

Lemma alloc_step (w : World) : objs_ok w -> objs_ok (alloc w) /\ evolves w (alloc w).
Proof.
  intros [Hnd Hlt]. split; [split; [done|]|split].
  - eapply Forall_impl; [exact Hlt|]. cbn. lia.
  - cbn. lia.
  - apply kept_sub. intros x. rewrite list_elem_of_filter. tauto.
Qed.

Lemma list_loop_same (l : list Task) (w : World) :
  tasks (fst (list_loop l w)) = tasks w /\ next_obj (fst (list_loop l w)) = next_obj w.
Proof.
  revert w. induction l as [|t l IH]; intros w; [done|]. cbn [list_loop].
  destruct (line_of t) as [m|]; [|done]. by destruct (IH (print m w)) as [-> ->].
Qed.

Lemma list_remove_sublist (o : nat) (l : list Task) : list_remove o l `sublist_of` l.
Proof.
  induction l as [|t l IH]; [done|]. cbn [list_remove].
  destruct (obj t =? o)%nat; [by apply sublist_cons|by apply sublist_skip].
Qed.

Lemma update_obj_objs (o : nat) (f : Task -> Task) (l : list Task) :
  (forall t, t ∈ l -> obj t = o -> obj (f t) = obj t) ->
  map obj (update_obj o f l) = map obj l.
Proof.
  unfold update_obj. induction l as [|t l IH]; intros Hf; [done|]. cbn [map].
  rewrite IH by (intros x Hx; apply Hf; by right). f_equal.
  destruct (Nat.eqb_spec (obj t) o) as [E|E]; [|done]. apply Hf; [left|done].
Qed.

Lemma update_obj_kept (o : nat) (f : Task -> Task) (l : list Task) :
  (forall t, t ∈ l -> obj t = o ->
     obj (f t) = obj t /\ task_id (f t) = task_id t /\ status_step (status t) (status (f t))) ->
  kept l (update_obj o f l).
Proof.
  intros Hf t'. unfold update_obj. rewrite list_elem_of_fmap.
  intros (t & -> & Ht). exists t. destruct (Nat.eqb_spec (obj t) o) as [E|E].
  - destruct (Hf t Ht E) as (? & ? & ?). done.
  - repeat split; [done|apply status_step_refl].
Qed.

Lemma update_obj_step (o : nat) (f : Task -> Task) (w : World) :
  (forall t, t ∈ tasks w -> obj t = o ->
     obj (f t) = obj t /\ task_id (f t) = task_id t /\ status_step (status t) (status (f t))) ->
  objs_ok w ->
  objs_ok (set_tasks (update_obj o f (tasks w)) w)
  /\ evolves w (set_tasks (update_obj o f (tasks w)) w).
Proof.
  intros Hf. apply quiet_step; [done| |by apply update_obj_kept].
  cbn [tasks set_tasks]. rewrite update_obj_objs; [reflexivity|].
  intros t Ht E. by destruct (Hf t Ht E).
Qed.

Lemma mark_complete_fields (t : Task) :
  obj (Task_mark_complete t) = obj t /\ task_id (Task_mark_complete t) = task_id t
  /\ status_step (status t) (status (Task_mark_complete t)).
Proof. repeat split. by right. Qed.

Lemma save_tasks_step (w : World) :
  objs_ok w -> objs_ok (save_tasks w) /\ evolves w (save_tasks w).
Proof. apply same_tasks_step; [apply next_obj_save_tasks|apply tasks_save_tasks]. Qed.

(** [save_tasks] and [print] after a change of the list leave the list
    and the allocator as the change made them. *)
Lemma saved_printed_step (m : message) (l : list Task) (w : World) :
  (objs_ok w -> objs_ok (set_tasks l w) /\ evolves w (set_tasks l w)) ->
  objs_ok w ->
  objs_ok (print m (save_tasks (set_tasks l w)))
  /\ evolves w (print m (save_tasks (set_tasks l w))).
Proof.
  intros H Hok. destruct (H Hok) as [Hok1 Hev1].
  destruct (same_tasks_step (set_tasks l w) (print m (save_tasks (set_tasks l w))))
    as [Hok2 Hev2]; [..|done|].
  - cbn [next_obj print]. apply next_obj_save_tasks.
  - cbn [tasks print]. apply tasks_save_tasks.
  - split; [done|]. by apply evolves_trans with (set_tasks l w).
Qed.

Lemma add_task_step (nm pr due : value) (w : World) :
  objs_ok w -> objs_ok (add_task nm pr due w) /\ evolves w (add_task nm pr due w).
Proof.
  apply (append_step w _ (Task_init (next_obj w)
           (VInt (Z.of_nat (length (tasks w)) + 1)) nm pr due)).
  - unfold add_task. by rewrite next_obj_save_tasks.
  - apply tasks_add_task.
  - done.
Qed.

Lemma remove_task_step (tid : value) (w : World) :
  objs_ok w -> objs_ok (remove_task tid w) /\ evolves w (remove_task tid w).
Proof.
  unfold remove_task, get_task_by_id. destruct (find_task tid (tasks w)) as [t|].
  - apply saved_printed_step. apply quiet_step; [done|..]; cbn [tasks set_tasks].
    + apply sublist_submseteq, fmap_sublist, list_remove_sublist.
    + apply kept_sub. intros x Hx. eapply elem_of_sublist; [exact Hx|].
      apply list_remove_sublist.
  - unchanged.
Qed.

(** [print] after a change of the list. *)
Lemma printed_step (m : message) (l : list Task) (w : World) :
  (objs_ok w -> objs_ok (set_tasks l w) /\ evolves w (set_tasks l w)) ->
  objs_ok w ->
  objs_ok (print m (set_tasks l w)) /\ evolves w (print m (set_tasks l w)).
Proof.
  intros H Hok. destruct (H Hok) as [Hok1 Hev1].
  destruct (same_tasks_step (set_tasks l w) (print m (set_tasks l w)))
    as [Hok2 Hev2]; [done..|].
  split; [done|]. by apply evolves_trans with (set_tasks l w).
Qed.

Lemma prioritize_tasks_step (w : World) :
  objs_ok w -> objs_ok (prioritize_tasks w) /\ evolves w (prioritize_tasks w).
Proof.
  unfold prioritize_tasks. pose proof (list_sort_perm (tasks w)) as E.
  destruct (list_sort (tasks w)) as [l [e|]]; cbn [fst] in E;
    [apply printed_step|apply saved_printed_step];
    (apply quiet_step; [done|..]; cbn [tasks set_tasks];
     [by rewrite E|apply kept_sub; intros x; by rewrite E]).
Qed.

Lemma mark_task_complete_step (tid : value) (w : World) :
  objs_ok w -> objs_ok (mark_task_complete tid w) /\ evolves w (mark_task_complete tid w).
Proof.
  unfold mark_task_complete, get_task_by_id. destruct (find_task tid (tasks w)) as [t|].
  - apply saved_printed_step. apply update_obj_step. intros x _ _.
    apply mark_complete_fields.
  - unchanged.
Qed.

Lemma load_loop_step (items : list data) (w : World) :
  objs_ok w -> objs_ok (fst (load_loop items w)) /\ evolves w (fst (load_loop items w)).
Proof.
  revert w. induction items as [|td items IH]; intros w Hok; cbn [load_loop].
  - split; [done|apply evolves_refl].
  - destruct (load_args td) as [[[[tid nm] pr] due]|]; [|split; [done|apply evolves_refl]].
    destruct (subscript td "status") as [st|]; [|by apply alloc_step].
    set (t := set_status (Plain st) (Task_init (next_obj w) tid nm pr due)).
    destruct (append_step w (set_tasks (tasks (alloc w) ++ [t]) (alloc w)) t)
      as [Hok1 Hev1]; [done..|].
    destruct (IH _ Hok1) as [Hok2 Hev2]. split; [done|].
    by eapply evolves_trans.
Qed.

Lemma load_tasks_step (w : World) :
  objs_ok w -> objs_ok (fst (load_tasks w)) /\ evolves w (fst (load_tasks w)).
Proof.
  unfold load_tasks.
  destruct (disk w) as [| |d]; try (unchanged).
  destruct (can_read w); [|unchanged].
  destruct (iterate d); [apply load_loop_step|unchanged].
Qed.

Lemma find_obj_Some (o : nat) (l : list Task) (t : Task) :
  find (fun t => (obj t =? o)%nat) l = Some t -> t ∈ l /\ obj t = o.
Proof.
  induction l as [|x l IH]; [done|]. cbn [find].
  destruct (Nat.eqb_spec (obj x) o) as [E|E].
  - intros [= <-]. split; [left|done].
  - intros H. destruct (IH H). split; [by right|done].
Qed.

Lemma same_obj_same_task (l : list Task) (a b : Task) :
  NoDup (map obj l) -> a ∈ l -> b ∈ l -> obj a = obj b -> a = b.
Proof.
  induction l as [|x l IH]; cbn [map]; [by rewrite elem_of_nil|].
  rewrite NoDup_cons, !elem_of_cons. intros [Hx Hnd] [->|Ha] [->|Hb] Hab; try done.
  - destruct Hx. rewrite Hab. apply list_elem_of_fmap. eauto.
  - destruct Hx. rewrite <- Hab. apply list_elem_of_fmap. eauto.
  - by apply IH.
Qed.

Lemma postpone_obj_step (o : nat) (days : Z) (w : World) :
  objs_ok w -> objs_ok (fst (postpone_obj o days w)) /\ evolves w (fst (postpone_obj o days w)).
Proof.
  intros Hok. unfold postpone_obj.
  destruct (find _ (tasks w)) as [t|] eqn:E; [|unchanged].
  apply find_obj_Some in E as [Ht Ho].
  destruct (Task_postpone t days) as [[t' msgs]|] eqn:Ep; [|unchanged].
  assert (Hf : obj t' = obj t /\ task_id t' = task_id t /\ status t' = status t).
  { unfold Task_postpone in Ep. destruct (truthy (due_date t)).
    - destruct (999999999 <? Z.abs days); [done|].
      destruct (due_date t) as [|dt]; [done|].
      destruct (add_days dt days); [|done]. by injection Ep as <- _.
    - by injection Ep as <- _. }
  destruct Hf as (Hf1 & Hf2 & Hf3).
  destruct (update_obj_step o (fun _ => t') w) as [Hok1 Hev1]; [|done|].
  { intros x Hx Hxo. assert (x = t) as ->.
    { apply (same_obj_same_task (tasks w)); [apply Hok|done..|congruence]. }
    repeat split; [done..|]. left. done. }
  cbn [fst]. set (w1 := set_tasks _ w) in *.
  assert (Hp : forall ms w2, tasks (foldl (fun w m => print m w) w2 ms) = tasks w2
                 /\ next_obj (foldl (fun w m => print m w) w2 ms) = next_obj w2).
  { induction ms as [|m ms IH]; intros w2; [done|]. cbn [foldl].
    by destruct (IH (print m w2)) as [-> ->]. }
  destruct (Hp msgs w1) as [Hp1 Hp2].
  destruct (same_tasks_step w1 (foldl (fun w m => print m w) w1 msgs)) as [? ?]; [done..|].
  split; [done|]. by eapply evolves_trans.
Qed.

Lemma list_tasks_step (w : World) :
  objs_ok w -> objs_ok (fst (list_tasks w)) /\ evolves w (fst (list_tasks w)).
Proof. apply same_tasks_step; apply list_loop_same. Qed.

Lemma get_task_by_id_step (tid : value) (w : World) :
  objs_ok w ->
  objs_ok (fst (get_task_by_id tid w)) /\ evolves w (fst (get_task_by_id tid w)).
Proof. unfold get_task_by_id. destruct (find_task tid (tasks w)); unchanged. Qed.

Lemma mark_complete_obj_step (o : nat) (w : World) :
  objs_ok w ->
  objs_ok (set_tasks (update_obj o Task_mark_complete (tasks w)) w)
  /\ evolves w (set_tasks (update_obj o Task_mark_complete (tasks w)) w).
Proof. apply update_obj_step. intros x _ _. apply mark_complete_fields. Qed.

Create HintDb steps.
#[export] Hint Resolve add_task_step list_tasks_step get_task_by_id_step
  remove_task_step prioritize_tasks_step mark_task_complete_step save_tasks_step
  load_tasks_step mark_complete_obj_step postpone_obj_step : steps.

Lemma run_step (c : call) (w : World) :
  objs_ok w -> objs_ok (fst (run c w)) /\ evolves w (fst (run c w)).
Proof. destruct c; cbn [run fst]; auto with steps. Qed.

Lemma run_all_step (cs : list call) (w : World) :
  objs_ok w -> objs_ok (run_all cs w) /\ evolves w (run_all cs w).
Proof.
  revert w. induction cs as [|c cs IH]; intros w Hok.
  - split; [done|apply evolves_refl].
  - destruct (run_step c w Hok) as [Hok1 Hev1].
    destruct (IH _ Hok1) as [Hok2 Hev2]. split; [done|].
    by apply evolves_trans with (fst (run c w)).
Qed.

Lemma TaskManager_init_ok (f : file) (r wr : bool) :
  objs_ok (fst (TaskManager_init f r wr)).
Proof.
  apply load_tasks_step. split; [constructor|constructor].
Qed.

(** C8: over any run of calls on a constructed manager, a task object
    that is still in the store has the id it had before, and its status
    is the one it had or ["Completed"]; a completed task stays
    completed. *)
Theorem task_id_fixed_status_one_way
    (f : file) (r wr : bool) (before after : list call) (t t' : Task) :
  let w1 := run_all before (fst (TaskManager_init f r wr)) in
  let w2 := run_all after w1 in
  t ∈ tasks w1 -> t' ∈ tasks w2 -> obj t' = obj t ->
  task_id t' = task_id t
  /\ (status t' = status t \/ status t' = VStr "Completed")
  /\ (status t = VStr "Completed" -> status t' = VStr "Completed").
Proof.
  intros w1 w2 Ht Ht' Ho.
  destruct (run_all_step before _ (TaskManager_init_ok f r wr)) as [Hok1 _].
  fold w1 in Hok1.
  destruct (run_all_step after w1 Hok1) as [_ [_ Hk]]. fold w2 in Hk.
  destruct (Hk t') as (t0 & Ht0 & Ho0 & Hid & Hst).
  { apply list_elem_of_filter. split; [|done]. rewrite Ho.
    destruct Hok1 as [_ Hlt]. rewrite Forall_forall in Hlt. by apply Hlt. }
  assert (t0 = t) as ->.
  { apply (same_obj_same_task (tasks w1)); [apply Hok1|done..|congruence]. }
  split; [done|]. split; [exact Hst|].
  intros Hc. destruct Hst as [->| ->]; done.
Qed.

Lemma task_id_fixed_status_one_way_witness :
  let w1 := run_all [CallAddTask (VStr "a") (VInt 2) VNone; CallAddTask (VStr "b") (VInt 1) VNone]
              (fst (TaskManager_init NoFile true true)) in
  let w2 := run_all [CallPrioritizeTasks; CallMarkTaskComplete (VInt 1); CallPostpone 0 3;
                     CallAddTask (VStr "c") (VInt 0) VNone] w1 in
  let t := mkTask 0 (VInt 1) (VStr "a") (VInt 2) VNone (VStr "Pending") in
  let t' := mkTask 0 (VInt 1) (VStr "a") (VInt 2) VNone (VStr "Completed") in
  t ∈ tasks w1 /\ t' ∈ tasks w2 /\ obj t' = obj t
  /\ task_id t' = task_id t
  /\ (status t' = status t \/ status t' = VStr "Completed").
Proof.
  intros w1 w2 t t'.
  assert (H1 : t ∈ tasks w1) by (vm_compute; left).
  assert (H2 : t' ∈ tasks w2) by (vm_compute; right; left).
  assert (H3 : obj t' = obj t) by reflexivity.
  destruct (task_id_fixed_status_one_way NoFile true true _ _ t t' H1 H2 H3) as (Ha & Hb & _).
  repeat split; assumption.
Defined.

(** * Further properties of the code *)

(** ** Lookup *)

Lemma find_task_first (tid : value) (l : list Task) (t : Task) :
  find_task tid l = Some t ->
  exists l1 l2, l = l1 ++ t :: l2 /\ py_eq (task_id t) tid = true
                /\ Forall (fun x => py_eq (task_id x) tid = false) l1.
Proof.
  unfold find_task. induction l as [|x l IH]; [done|]. cbn [find].
  destruct (py_eq (task_id x) tid) eqn:E.
  - intros [= <-]. by exists [], l.
  - intros (l1 & l2 & -> & Ht & Hl1)%IH. exists (x :: l1), l2.
    split; [done|]. split; [done|]. by constructor.
Qed.

(** X1: [get_task_by_id] returns the first task, in the order of the list,
    whose id is [==] to the argument, and prints nothing then; when no
    task has such an id it returns [None] and prints the not-found line.
    It never changes the list or the file. *)
Theorem get_task_by_id_first_match (tid : value) (w : World) :
  tasks (fst (get_task_by_id tid w)) = tasks w
  /\ disk (fst (get_task_by_id tid w)) = disk w
  /\ match snd (get_task_by_id tid w) with
     | Some t =>
         trace (fst (get_task_by_id tid w)) = trace w
         /\ exists l1 l2, tasks w = l1 ++ t :: l2 /\ py_eq (task_id t) tid = true
                          /\ Forall (fun x => py_eq (task_id x) tid = false) l1
     | None =>
         trace (fst (get_task_by_id tid w)) = trace w ++ [Print (MsgNotFound tid)]
         /\ Forall (fun x => py_eq (task_id x) tid = false) (tasks w)
     end.
Proof.
  unfold get_task_by_id. destruct (find_task tid (tasks w)) as [t|] eqn:E; cbn.
  - repeat split. by apply find_task_first.
  - repeat split. clear -E. unfold find_task in E.
    induction (tasks w) as [|x l IH]; [constructor|]. cbn [find] in E.
    destruct (py_eq (task_id x) tid) eqn:Ex; [done|]. constructor; auto.
Qed.

(** ** Completing *)

Lemma find_task_update_obj (tid : value) (o : nat) (f : Task -> Task) (l : list Task) :
  (forall x, task_id (f x) = task_id x) ->
  find_task tid (update_obj o f l)
  = (fun x => if (obj x =? o)%nat then f x else x) <$> find_task tid l.
Proof.
  intros Hf. unfold find_task, update_obj. induction l as [|x l IH]; [done|].
  cbn [map find]. destruct (obj x =? o)%nat eqn:Eo; rewrite ?Hf;
    destruct (py_eq (task_id x) tid); cbn; by rewrite ?Eo.
Qed.

Lemma update_obj_mark_idemp (o : nat) (l : list Task) :
  update_obj o Task_mark_complete (update_obj o Task_mark_complete l)
  = update_obj o Task_mark_complete l.
Proof.
  unfold update_obj. rewrite map_map. apply map_ext. intros x.
  destruct (obj x =? o)%nat eqn:E; cbn; by rewrite E.
Qed.

(** X2: After [mark_task_complete] on an id that some task has, looking the
    id up gives the same task with status ["Completed"], and a second
    [mark_task_complete] leaves the list as the first one left it. *)
Theorem mark_task_complete_then_lookup (tid : value) (w : World) (t : Task) :
  find_task tid (tasks w) = Some t ->
  snd (get_task_by_id tid (mark_task_complete tid w)) = Some (Task_mark_complete t)
  /\ status (Task_mark_complete t) = VStr "Completed"
  /\ tasks (mark_task_complete tid (mark_task_complete tid w))
     = tasks (mark_task_complete tid w)
  /\ map (fun x => (obj x, task_id x, name x, priority x, due_date x))
       (tasks (mark_task_complete tid w))
     = map (fun x => (obj x, task_id x, name x, priority x, due_date x)) (tasks w).
Proof.
  intros Hf.
  assert (Ht : tasks (mark_task_complete tid w)
               = update_obj (obj t) Task_mark_complete (tasks w)).
  { unfold mark_task_complete, get_task_by_id. rewrite Hf.
    cbn [print tasks]. by rewrite tasks_save_tasks. }
  assert (Hf' : find_task tid (tasks (mark_task_complete tid w))
                = Some (Task_mark_complete t)).
  { rewrite Ht, find_task_update_obj by done. rewrite Hf. cbn.
    by rewrite Nat.eqb_refl. }
  split; [|split; [done|split]].
  - unfold get_task_by_id. by rewrite Hf'.
  - unfold mark_task_complete at 1. unfold get_task_by_id. rewrite Hf'.
    cbn [print tasks]. rewrite tasks_save_tasks. cbn [tasks set_tasks].
    rewrite Ht. apply update_obj_mark_idemp.
  - rewrite Ht. unfold update_obj. rewrite map_map. apply map_ext.
    intros x. by destruct (obj x =? obj t)%nat.
Qed.

Lemma mark_task_complete_then_lookup_witness :
  find_task (VInt 2) (tasks store_two)
  = Some (mkTask 1 (VInt 2) (VStr "Go grocery shopping") (VInt 3) VNone (VStr "Pending"))
  /\ snd (get_task_by_id (VInt 2) (mark_task_complete (VInt 2) store_two))
     = Some (mkTask 1 (VInt 2) (VStr "Go grocery shopping") (VInt 3) VNone (VStr "Completed")).
Proof.
  assert (H : find_task (VInt 2) (tasks store_two)
    = Some (mkTask 1 (VInt 2) (VStr "Go grocery shopping") (VInt 3) VNone (VStr "Pending")))
    by (vm_compute; reflexivity).
  split; [exact H|].
  exact (proj1 (mark_task_complete_then_lookup (VInt 2) store_two _ H)).
Defined.

(** ** Removing *)

Lemma list_remove_split (l1 l2 : list Task) (t : Task) :
  NoDup (map obj (l1 ++ t :: l2)) -> list_remove (obj t) (l1 ++ t :: l2) = l1 ++ l2.
Proof.
  induction l1 as [|x l1 IH]; cbn [app map list_remove].
  - by rewrite Nat.eqb_refl.
  - rewrite NoDup_cons. intros [Hx Hnd].
    destruct (Nat.eqb_spec (obj x) (obj t)) as [E|E]; [|by rewrite IH].
    destruct Hx. rewrite E. apply list_elem_of_fmap. exists t.
    split; [done|]. apply elem_of_app. right. left.
Qed.

Lemma find_task_app_skip (tid : value) (l1 l2 : list Task) :
  Forall (fun x => py_eq (task_id x) tid = false) l1 ->
  find_task tid (l1 ++ l2) = find_task tid l2.
Proof.
  unfold find_task. induction 1 as [|x l1 Hx _ IH]; [done|].
  cbn [app find]. by rewrite Hx.
Qed.

(** X3: On a manager reached by any calls, [remove_task] on an id that some
    task has takes out the first task with that id and nothing else: the
    tasks before and after it stay, in their order.  A writable file is
    rewritten with the tasks that remain.  A later lookup of the id finds
    whatever task with that id came after the removed one. *)
Theorem remove_task_first_match
    (f : file) (r wr : bool) (cs : list call) (tid : value) (t : Task) :
  let w := run_all cs (fst (TaskManager_init f r wr)) in
  find_task tid (tasks w) = Some t ->
  exists l1 l2,
    tasks w = l1 ++ t :: l2
    /\ Forall (fun x => py_eq (task_id x) tid = false) l1
    /\ tasks (remove_task tid w) = l1 ++ l2
    /\ find_task tid (tasks (remove_task tid w)) = find_task tid l2
    /\ (can_write w = true
        -> disk (remove_task tid w) = Doc (DList (map task_dict (l1 ++ l2)))).
Proof.
  intros w Hf.
  destruct (run_all_step cs _ (TaskManager_init_ok f r wr)) as [[Hnd _] _].
  fold w in Hnd.
  destruct (find_task_first _ _ _ Hf) as (l1 & l2 & Hl & _ & Hl1).
  exists l1, l2. split; [done|]. split; [done|].
  assert (Ht : tasks (remove_task tid w) = l1 ++ l2).
  { unfold remove_task, get_task_by_id. rewrite Hf. cbn [print tasks].
    rewrite tasks_save_tasks. cbn [tasks set_tasks]. rewrite Hl.
    apply list_remove_split. by rewrite <- Hl. }
  split; [done|]. split; [by rewrite Ht, find_task_app_skip|].
  intros Hw. unfold remove_task, get_task_by_id. rewrite Hf.
  unfold save_tasks. cbn [can_write set_tasks]. rewrite Hw.
  cbn [print write_file disk tasks]. rewrite Hl, list_remove_split; [done|].
  by rewrite <- Hl.
Qed.

Lemma remove_task_first_match_witness :
  let w := run_all [CallAddTask (VStr "a") (VInt 1) VNone; CallAddTask (VStr "b") (VInt 1) VNone]
             (fst (TaskManager_init NoFile true true)) in
  let t := mkTask 0 (VInt 1) (VStr "a") (VInt 1) VNone (VStr "Pending") in
  find_task (VInt 1) (tasks w) = Some t
  /\ exists l1 l2, tasks w = l1 ++ t :: l2 /\ tasks (remove_task (VInt 1) w) = l1 ++ l2.
Proof.
  intros w t.
  assert (H : find_task (VInt 1) (tasks w) = Some t) by (vm_compute; reflexivity).
  split; [exact H|].
  destruct (remove_task_first_match NoFile true true _ (VInt 1) t H)
    as (l1 & l2 & H1 & _ & H2 & _).
  by exists l1, l2.
Defined.

(** With two tasks of one id in the store, the id is still found after
    a removal. *)
Example remove_then_lookup_finds_duplicate :
  let w := run_all [CallAddTask (VStr "a") (VInt 1) VNone; CallAddTask (VStr "b") (VInt 1) VNone;
                    CallRemoveTask (VInt 1); CallAddTask (VStr "c") (VInt 1) VNone;
                    CallRemoveTask (VInt 2)]
             (fst (TaskManager_init NoFile true true)) in
  map name (tasks w) = [VStr "c"]
  /\ option_map name (snd (get_task_by_id (VInt 2) w)) = Some (VStr "c").
Proof. split; vm_compute; reflexivity. Qed.

(** ** The file against the list in memory *)

Lemma list_loop_frame (l : list Task) (w : World) :
  tasks (fst (list_loop l w)) = tasks w /\ disk (fst (list_loop l w)) = disk w
  /\ can_write (fst (list_loop l w)) = can_write w
  /\ can_read (fst (list_loop l w)) = can_read w.
Proof.
  revert w. induction l as [|t l IH]; intros w; [done|]. cbn [list_loop].
  destruct (line_of t) as [m|]; [|done].
  by destruct (IH (print m w)) as (-> & -> & -> & ->).
Qed.

Lemma load_loop_frame (items : list data) (w : World) :
  disk (fst (load_loop items w)) = disk w
  /\ can_write (fst (load_loop items w)) = can_write w
  /\ can_read (fst (load_loop items w)) = can_read w
  /\ trace (fst (load_loop items w)) = trace w.
Proof.
  revert w. induction items as [|td items IH]; intros w; [done|]. cbn [load_loop].
  destruct (load_args td) as [[[[tid nm] pr] due]|]; [|done].
  destruct (subscript td "status") as [st|]; [|done].
  by destruct (IH (set_tasks (tasks (alloc w)
        ++ [set_status (Plain st) (Task_init (next_obj w) tid nm pr due)]) (alloc w)))
    as (-> & -> & -> & ->).
Qed.

Lemma prints_frame (ms : list message) (w : World) :
  tasks (foldl (fun w m => print m w) w ms) = tasks w
  /\ disk (foldl (fun w m => print m w) w ms) = disk w
  /\ can_write (foldl (fun w m => print m w) w ms) = can_write w
  /\ can_read (foldl (fun w m => print m w) w ms) = can_read w.
Proof.
  revert w. induction ms as [|m ms IH]; intros w; [done|]. cbn [foldl].
  by destruct (IH (print m w)) as (-> & -> & -> & ->).
Qed.

Lemma can_write_save_tasks (w : World) : can_write (save_tasks w) = can_write w.
Proof. unfold save_tasks. by destruct (can_write w) eqn:E. Qed.

Lemma run_can_write (c : call) (w : World) :
  can_write (fst (run c w)) = can_write w.
Proof.
  destruct c; cbn [run fst];
    unfold add_task, remove_task, mark_task_complete, prioritize_tasks,
      get_task_by_id, load_tasks, list_tasks, postpone_obj.
  - by rewrite can_write_save_tasks.
  - apply list_loop_frame.
  - by destruct (find_task tid (tasks w)).
  - destruct (find_task tid (tasks w)); [|done].
    cbn [can_write print]. by rewrite can_write_save_tasks.
  - destruct (list_sort (tasks w)) as [l [e|]]; [done|].
    cbn [can_write print]. by rewrite can_write_save_tasks.
  - destruct (find_task tid (tasks w)); [|done].
    cbn [can_write print]. by rewrite can_write_save_tasks.
  - apply can_write_save_tasks.
  - destruct (disk w); [done..|]. destruct (can_read w); [|done].
    destruct (iterate d); [apply load_loop_frame|done].
  - done.
  - destruct (find _ (tasks w)) as [t|]; [|done].
    destruct (Task_postpone t days) as [[t' ms]|]; [|done].
    cbn [fst]. by rewrite (proj1 (proj2 (proj2 (prints_frame ms _)))).
Qed.

(** The methods of [Task] do not save: after [task.postpone(days)] the
    file still holds the old due date. *)
Example postpone_leaves_file_stale :
  let w := fst (run (CallPostpone 0 7) store_two) in
  map due_date (tasks w)
  = [Datetime (mkDatetime 2024 5 19 9 30 0 0); VNone]
  /\ disk w = disk store_two /\ ~ synced w.
Proof. repeat split; try (vm_compute; reflexivity). vm_compute. discriminate. Qed.

Lemma run_disk_unwritable (c : call) (w : World) :
  can_write w = false -> disk (fst (run c w)) = disk w.
Proof.
  intros Hw. destruct c; cbn [run fst];
    unfold add_task, remove_task, mark_task_complete, prioritize_tasks,
      get_task_by_id, save_tasks, load_tasks, list_tasks, postpone_obj.
  - cbn [can_write set_tasks alloc]. by rewrite Hw.
  - apply list_loop_frame.
  - by destruct (find_task tid (tasks w)).
  - destruct (find_task tid (tasks w)); [|done].
    cbn [can_write set_tasks]. by rewrite Hw.
  - destruct (list_sort (tasks w)) as [l [e|]]; [done|].
    cbn [can_write set_tasks]. by rewrite Hw.
  - destruct (find_task tid (tasks w)); [|done].
    cbn [can_write set_tasks]. by rewrite Hw.
  - by rewrite Hw.
  - destruct (disk w) eqn:E; [done..|]. destruct (can_read w); [|done].
    destruct (iterate d); [|done]. rewrite (proj1 (load_loop_frame _ _)). done.
  - done.
  - destruct (find _ (tasks w)) as [t|]; [|done].
    destruct (Task_postpone t days) as [[t' ms]|]; [|done].
    cbn [fst]. by rewrite (proj1 (proj2 (prints_frame ms _))).
Qed.

(** X5: When the file cannot be opened for writing, no sequence of calls
    changes it, while the list in memory changes all the same:
    [add_task] still appends its task and reports the failed save. *)
Theorem unwritable_file_untouched (cs : list call) (w : World) :
  can_write w = false ->
  disk (run_all cs w) = disk w
  /\ forall nm pr due,
       length (tasks (add_task nm pr due w)) = S (length (tasks w))
       /\ trace (add_task nm pr due w) = trace w ++ [Print MsgSaveError].
Proof.
  intros Hw. split.
  - revert w Hw. induction cs as [|c cs IH]; intros w Hw; [done|].
    cbn [run_all foldl]. fold (run_all cs (fst (run c w))).
    rewrite IH by (by rewrite run_can_write). by apply run_disk_unwritable.
  - intros nm pr due. rewrite tasks_add_task, length_app. split; [cbn; lia|].
    unfold add_task, save_tasks. cbn [can_write set_tasks alloc]. by rewrite Hw.
Qed.

Lemma unwritable_file_untouched_witness :
  let w := mkWorld [] Garbled true false [] 0 in
  can_write w = false
  /\ disk (run_all [CallAddTask (VStr "a") (VInt 1) VNone; CallPrioritizeTasks;
                    CallMarkTaskComplete (VInt 1)] w) = Garbled.
Proof.
  intros w. assert (H : can_write w = false) by reflexivity.
  split; [exact H|]. exact (proj1 (unwritable_file_untouched _ w H)).
Defined.

(** ** Listing *)

Lemma line_of_listable (t : Task) :
  line_of t = if listable t then Ok (line t) else Raise AttributeError.
Proof.
  unfold line_of, listable, line. destruct (due_date t) as [d|dt]; [|done].
  by destruct (truthy (Plain d)).
Qed.

Lemma list_loop_lines (l1 rest : list Task) (w : World) :
  forallb listable l1 = true ->
  list_loop (l1 ++ rest) w
  = list_loop rest (foldl (fun w t => print (line t) w) w l1).
Proof.
  revert w. induction l1 as [|t l1 IH]; intros w H; [done|].
  cbn [forallb] in H. apply andb_prop in H as [Ht H].
  cbn [app list_loop foldl]. rewrite line_of_listable, Ht. by apply IH.
Qed.

Lemma trace_print_lines (l : list Task) (w : World) :
  trace (foldl (fun w t => print (line t) w) w l)
  = trace w ++ map (fun t => Print (line t)) l
  /\ tasks (foldl (fun w t => print (line t) w) w l) = tasks w
  /\ disk (foldl (fun w t => print (line t) w) w l) = disk w.
Proof.
  revert w. induction l as [|t l IH]; intros w; cbn [foldl map].
  - by rewrite app_nil_r.
  - destruct (IH (print (line t) w)) as (-> & -> & ->).
    cbn [trace tasks disk print]. by rewrite <- app_assoc.
Qed.

(** X6: [list_tasks] prints one line per task, in the order of the list, up
    to the first task whose due date counts as true and is not a
    datetime; there it raises [AttributeError] (the value has no
    [strftime]).  Without such a task it prints every line and returns.
    In both cases the list and the file are as before. *)
Theorem list_tasks_lines (w : World) (l1 rest : list Task) :
  tasks w = l1 ++ rest ->
  forallb listable l1 = true ->
  match rest with t :: _ => listable t = false | [] => True end ->
  snd (list_tasks w) = match rest with _ :: _ => Some AttributeError | [] => None end
  /\ trace (fst (list_tasks w)) = trace w ++ map (fun t => Print (line t)) l1
  /\ tasks (fst (list_tasks w)) = tasks w
  /\ disk (fst (list_tasks w)) = disk w.
Proof.
  intros Hl H1 Hr. unfold list_tasks.
  assert (E : list_loop (tasks w) w
              = list_loop rest (foldl (fun w t => print (line t) w) w l1)).
  { rewrite Hl. by apply list_loop_lines. }
  rewrite E. clear E.
  destruct (trace_print_lines l1 w) as (Htr & Hta & Hd).
  destruct rest as [|t rest]; cbn [list_loop].
  - cbn [fst snd]. by rewrite Htr, Hta, Hd.
  - rewrite line_of_listable, Hr. cbn [fst snd]. by rewrite Htr, Hta, Hd.
Qed.

Lemma list_tasks_lines_witness :
  tasks store_two = tasks store_two ++ []
  /\ forallb listable (tasks store_two) = true
  /\ snd (list_tasks store_two) = None
  /\ trace (fst (list_tasks store_two))
     = trace store_two
       ++ [Print (MsgLine (VInt 1) (VStr "Finish project") (VInt 1) (Some (2024, 5, 12))
                   (VStr "Pending"));
           Print (MsgLine (VInt 2) (VStr "Go grocery shopping") (VInt 3) None
                   (VStr "Pending"))].
Proof.
  assert (H1 : tasks store_two = tasks store_two ++ []) by (by rewrite app_nil_r).
  assert (H2 : forallb listable (tasks store_two) = true) by reflexivity.
  split; [exact H1|]. split; [exact H2|].
  destruct (list_tasks_lines store_two _ [] H1 H2 I) as (Ha & Hb & _).
  split; [exact Ha|exact Hb].
Defined.

(** A due date given as text stops the listing. *)
Example list_tasks_text_due_date :
  snd (list_tasks (add_task (VStr "a") (VInt 1) (VStr "2024-05-12") store_two))
  = Some AttributeError.
Proof. vm_compute. reflexivity. Qed.

(** ** What a load brings into the store *)

Lemma data_eq_DStr (d : data) (s : string) : data_eq d (DStr s) = true -> d = DStr s.
Proof. destruct d; try done. cbn. by intros ->%String.eqb_eq. Qed.

Lemma load_args_Ok (td : data) (tid nm pr due : value) :
  load_args td = Ok (tid, nm, pr, due) ->
  exists a b c,
    tid = Plain a /\ nm = Plain b /\ pr = Plain c
    /\ subscript td "task_id" = Ok a /\ subscript td "name" = Ok b
    /\ subscript td "priority" = Ok c
    /\ ((subscript td "due_date" = Ok (DStr "None") /\ due = VNone)
        \/ exists s dt, subscript td "due_date" = Ok (DStr s) /\ strptime s = Ok dt
                        /\ due = Datetime dt).
Proof.
  unfold load_args.
  destruct (subscript td "task_id") as [a|]; [|done].
  destruct (subscript td "name") as [b|]; [|done].
  destruct (subscript td "priority") as [c|]; [|done].
  destruct (subscript td "due_date") as [dd|]; [|done]. cbn [result_bind].
  destruct (data_eq dd (DStr "None")) eqn:E; cbn [negb].
  - apply data_eq_DStr in E as ->. intros [= <- <- <- <-].
    exists a, b, c. repeat split. by left.
  - destruct dd as [| | |s| |]; try done.
    destruct (strptime s) as [dt|] eqn:Es; [|done]. cbn [result_bind].
    intros [= <- <- <- <-]. exists a, b, c. repeat split. right. by exists s, dt.
Qed.

Lemma load_loop_records (items : list data) (w : World) :
  exists new : list Task,
    tasks (fst (load_loop items w)) = tasks w ++ new
    /\ Forall2 loaded_from (take (length new) items) new
    /\ (snd (load_loop items w) = None <-> length new = length items).
Proof.
  revert w. induction items as [|td items IH]; intros w; cbn [load_loop].
  - exists []. by rewrite app_nil_r.
  - destruct (load_args td) as [[[[tid nm] pr] due]|] eqn:Ea.
    2:{ exists []. rewrite app_nil_r. split; [done|]. split; [constructor|]. by split. }
    destruct (subscript td "status") as [st|] eqn:Es.
    2:{ exists []. rewrite app_nil_r. split; [done|]. split; [constructor|]. by split. }
    set (t := set_status (Plain st) (Task_init (next_obj w) tid nm pr due)).
    destruct (IH (set_tasks (tasks (alloc w) ++ [t]) (alloc w))) as (new & Ht & HF & Hn).
    exists (t :: new). split; [|split].
    + rewrite Ht. cbn [tasks set_tasks alloc]. by rewrite <- app_assoc.
    + cbn [length take]. constructor; [|done].
      apply load_args_Ok in Ea as (a & b & c & -> & -> & -> & Ha & Hb & Hc & Hd).
      unfold loaded_from. cbn [t set_status Task_init task_id name priority status
                                 due_date encode].
      repeat split; try done. by exists a, b, c, st.
    + rewrite Hn. cbn [length]. split; [by intros ->|by intros [= ->]].
Qed.

Lemma load_tasks_appends (w : World) (items : list data) :
  disk w = Doc (DList items) -> can_read w = true ->
  exists new : list Task,
    tasks (fst (load_tasks w)) = tasks w ++ new
    /\ Forall2 loaded_from (take (length new) items) new
    /\ (snd (load_tasks w) = None <-> length new = length items)
    /\ disk (fst (load_tasks w)) = disk w
    /\ trace (fst (load_tasks w)) = trace w.
Proof.
  intros Hd Hr. unfold load_tasks. rewrite Hd, Hr. cbn [iterate].
  destruct (load_loop_records items w) as (new & H1 & H2 & H3).
  exists new. repeat split; try done; try apply H3.
  - by rewrite (proj1 (load_loop_frame items w)).
  - by rewrite (proj2 (proj2 (proj2 (load_loop_frame items w)))).
Qed.



Lemma strptime_Ok (s : string) (dt : datetime) :
  strptime s = Ok dt ->
  valid_datetime dt = true
  /\ hour dt = 0 /\ minute dt = 0 /\ second dt = 0 /\ microsecond dt = 0
  /\ (String.length s <= 10)%nat.
Proof.
  intros H. assert (Hlen : (String.length s <= 10)%nat).
  { destruct (le_lt_dec (String.length s) 10) as [|Hl]; [done|].
    by rewrite strptime_long in H. }
  unfold strptime in H.
  destruct (re_date s) as [|[[[y m] d] rest] l]; [done|].
  destruct rest; [|done]. destruct (valid_date y m d) eqn:Ev; [|done].
  injection H as <-. unfold valid_datetime. cbn. by rewrite Ev.
Qed.

(** X8: Every due date that [load_tasks] gives to a task is a date of the
    calendar at 00:00:00, read from a text of at most ten characters: a
    time of day never comes back from the file. *)
Theorem loaded_due_date_midnight (w : World) (items : list data) (t : Task) (dt : datetime) :
  disk w = Doc (DList items) -> can_read w = true ->
  t ∈ tasks (fst (load_tasks w)) -> t ∉ tasks w -> due_date t = Datetime dt ->
  valid_datetime dt = true
  /\ hour dt = 0 /\ minute dt = 0 /\ second dt = 0 /\ microsecond dt = 0.
Proof.
  intros Hd Hr Ht Hnt Hdue.
  destruct (load_tasks_appends w items Hd Hr) as (new & Hn & HF & _).
  rewrite Hn, elem_of_app in Ht. destruct Ht as [Ht|Ht]; [done|].
  apply list_elem_of_lookup in Ht as [i Hi].
  destruct (Forall2_lookup_r _ _ _ _ _ HF Hi) as (td & _ & Hl).
  destruct Hl as (_ & _ & _ & _ & _ & [[_ Hnone]|(s & dt' & _ & Hs & Hdt)]).
  - congruence.
  - rewrite Hdue in Hdt. injection Hdt as <-.
    destruct (strptime_Ok _ _ Hs) as (? & ? & ? & ? & ? & _). done.
Qed.

Lemma loaded_due_date_midnight_witness :
  let items := [record (DInt 7) (DStr "a") (DInt 1) (DStr "2024-2-9") (DStr "Pending")] in
  let w := mkWorld [] (Doc (DList items)) true true [] 0 in
  let t := mkTask 0 (VInt 7) (VStr "a") (VInt 1) (Datetime (mkDatetime 2024 2 9 0 0 0 0))
             (VStr "Pending") in
  t ∈ tasks (fst (load_tasks w)) /\ (t ∉ tasks w)
  /\ valid_datetime (mkDatetime 2024 2 9 0 0 0 0) = true.
Proof.
  intros items w t.
  assert (H1 : t ∈ tasks (fst (load_tasks w))) by (vm_compute; left).
  assert (H2 : t ∉ tasks w) by (vm_compute; apply not_elem_of_nil).
  split; [exact H1|]. split; [exact H2|].
  exact (proj1 (loaded_due_date_midnight w items t _ eq_refl eq_refl H1 H2 eq_refl)).
Defined.

Lemma load_after_save_raises_witness :
  can_write store_two = true
  /\ snd (TaskManager_init (disk (save_tasks store_two)) true false) = Some ValueError.
Proof.
  assert (H : can_write store_two = true) by reflexivity.
  split; [exact H|].
  exact (proj2 (load_after_save_raises store_two _ _ false H eq_refl) _ eq_refl).
Defined.

(** ** The driver, run once and run again *)

Lemma TaskManager_init_saved_due (t : Task) (l : list Task) (dt : datetime) (r : bool) :
  due_date t = Datetime dt ->
  snd (TaskManager_init (Doc (DList (map task_dict (t :: l)))) true r) = Some ValueError.
Proof.
  intros H. unfold TaskManager_init, load_tasks.
  cbn [disk can_read iterate map load_loop]. by rewrite (load_args_task_dict_due t dt H).
Qed.

(** X11: The driver in a directory without [tasks.json] (and where the file
    can be written) runs to its end and leaves two tasks, in memory and
    in the file: "Finish project", completed, and "Call mom".  Started
    again on the file it left, it raises [ValueError] in the constructor,
    before any of its calls. *)
Theorem main_runs_once (now1 now2 d1 d2 : datetime) (r : bool) :
  add_days now1 2 = Ok d1 -> add_days now2 1 = Ok d2 ->
  let w := fst (main now1 now2 NoFile r true) in
  snd (main now1 now2 NoFile r true) = None
  /\ map fields (tasks w)
     = [(VInt 1, VStr "Finish project", VInt 1, Datetime d1, VStr "Completed");
        (VInt 3, VStr "Call mom", VInt 2, Datetime d2, VStr "Pending")]
  /\ synced w
  /\ forall now3 now4 r', snd (main now3 now4 (disk w) true r') = Some ValueError.
Proof.
  intros H1 H2. cbv zeta.
  assert (E : exists res, main now1 now2 NoFile r true = res
     /\ snd res = None
     /\ tasks (fst res)
        = [mkTask 0 (VInt 1) (VStr "Finish project") (VInt 1) (Datetime d1) (VStr "Completed");
           mkTask 2 (VInt 3) (VStr "Call mom") (VInt 2) (Datetime d2) (VStr "Pending")]
     /\ synced (fst res)).
  { eexists. split; [reflexivity|]. unfold main.
    cbn [TaskManager_init load_tasks disk]. rewrite H1, H2. unfold synced.
    repeat split; vm_compute; reflexivity. }
  destruct E as (res & -> & Hs & Ht & Hy).
  split; [done|]. split; [by rewrite Ht|]. split; [done|].
  intros now3 now4 r'. unfold main.
  pose proof (TaskManager_init_saved_due _ [mkTask 2 (VInt 3) (VStr "Call mom") (VInt 2)
    (Datetime d2) (VStr "Pending")] d1 r' (eq_refl : due_date (mkTask 0 (VInt 1)
      (VStr "Finish project") (VInt 1) (Datetime d1) (VStr "Completed")) = Datetime d1)) as Hi.
  rewrite Hy, Ht.
  destruct (TaskManager_init _ true r') as [w' [e|]]; cbn [snd] in *; congruence.
Qed.

Lemma main_runs_once_witness :
  let now := mkDatetime 2024 5 10 9 30 0 0 in
  add_days now 2 = Ok (mkDatetime 2024 5 12 9 30 0 0)
  /\ add_days now 1 = Ok (mkDatetime 2024 5 11 9 30 0 0)
  /\ snd (main now now NoFile true true) = None
  /\ snd (main now now (disk (fst (main now now NoFile true true))) true true)
     = Some ValueError.
Proof.
  intros now.
  assert (H1 : add_days now 2 = Ok (mkDatetime 2024 5 12 9 30 0 0)) by reflexivity.
  assert (H2 : add_days now 1 = Ok (mkDatetime 2024 5 11 9 30 0 0)) by reflexivity.
  split; [exact H1|]. split; [exact H2|].
  destruct (main_runs_once now now _ _ true H1 H2) as (Ha & _ & _ & Hb).
  split; [exact Ha|apply Hb].
Defined.

(** ** The calendar: day numbers and dates *)

Lemma all_in_spec (k : nat) (lo : Z) (f : Z -> bool) :
  all_in k lo f = true -> forall z, lo <= z < lo + 2 ^ Z.of_nat k -> f z = true.
Proof.
  revert lo. induction k as [|k IH]; intros lo H z Hz.
  - cbn in *. by replace z with lo by lia.
  - cbn [all_in] in H. apply andb_prop in H as [H1 H2].
    rewrite Nat2Z.inj_succ, Z.pow_succ_r in Hz by lia.
    destruct (Z.lt_ge_cases z (lo + 2 ^ Z.of_nat k)).
    + apply (IH lo); [done|lia].
    + apply (IH (lo + 2 ^ Z.of_nat k)); [done|lia].
Qed.

Lemma month_day_checked (leapyear : bool) : all_in 9 0 (month_day_ok leapyear) = true.
Proof. destruct leapyear; vm_compute; reflexivity. Qed.

Lemma month_day_spec (n : Z) (leapyear : bool) :
  0 <= n < 365 + (if leapyear then 1 else 0) ->
  exists m d, month_day n leapyear = (m, d)
    /\ 1 <= m <= 12
    /\ 1 <= d <= DAYS_IN_MONTH m + (if (m =? 2) && leapyear then 1 else 0)
    /\ DAYS_BEFORE_MONTH m + (if (2 <? m) && leapyear then 1 else 0) + d = n + 1.
Proof.
  intros Hn. pose proof (all_in_spec _ _ _ (month_day_checked leapyear) n) as H.
  unfold month_day_ok in H.
  destruct (Z.ltb_spec n (365 + (if leapyear then 1 else 0))); [|lia].
  destruct (month_day n leapyear) as [m d]. exists m, d.
  assert (Hr : 0 <= n < 0 + 2 ^ Z.of_nat 9) by (destruct leapyear; cbn; lia).
  specialize (H Hr). do 4 (apply andb_prop in H as [H ?]). repeat split; lia.
Qed.

Lemma ord2ymd_month_day (n0 : Z) :
  ord2ymd n0
  = let r1 := (n0 - 1) mod 146097 in
    let r2 := r1 mod 36524 in
    let r3 := r2 mod 1461 in
    let y := (n0 - 1) / 146097 * 400 + 1 + r1 / 36524 * 100 + r2 / 1461 * 4 + r3 / 365 in
    if (r3 / 365 =? 4) || (r1 / 36524 =? 4) then (y - 1, 12, 31)
    else
      let md := month_day (r3 mod 365)
                  ((r3 / 365 =? 3) && (negb (r2 / 1461 =? 24) || (r1 / 36524 =? 3))) in
      (y, fst md, snd md).
Proof.
  unfold ord2ymd, month_day. cbv zeta.
  destruct (_ || _); [done|]. by destruct (_ <? _).
Qed.

(** The years by their place in the cycles of 400, 100 and 4 years. *)
Lemma days_before_year_parts (a b c e : Z) :
  0 <= a -> 0 <= b <= 3 -> 0 <= c <= 24 -> 0 <= e <= 3 ->
  days_before_year (400 * a + 100 * b + 4 * c + e + 1)
  = 146097 * a + 36524 * b + 1461 * c + 365 * e.
Proof.
  intros Ha Hb Hc He. unfold days_before_year. cbv zeta.
  Z.to_euclidean_division_equations. lia.
Qed.

Lemma is_leap_parts (a b c e : Z) :
  0 <= a -> 0 <= b <= 3 -> 0 <= c <= 24 -> 0 <= e <= 3 ->
  is_leap (400 * a + 100 * b + 4 * c + e + 1)
  = (e =? 3) && (negb (c =? 24) || (b =? 3)).
Proof.
  intros Ha Hb Hc He. unfold is_leap.
  destruct (Z.eqb_spec e 3), (Z.eqb_spec c 24), (Z.eqb_spec b 3); cbn [negb andb orb];
  repeat match goal with
  | |- context [?x mod ?k =? 0] => destruct (Z.eqb_spec (x mod k) 0)
  end; cbn [negb andb orb]; try done;
  exfalso; Z.to_euclidean_division_equations; lia.
Qed.

Lemma days_before_year_succ (y : Z) :
  days_before_year (y + 1) = days_before_year y + 365 + (if is_leap y then 1 else 0).
Proof.
  unfold days_before_year, is_leap. cbv zeta. replace (y + 1 - 1) with y by lia.
  destruct (Z.eqb_spec (y mod 4) 0), (Z.eqb_spec (y mod 100) 0),
    (Z.eqb_spec (y mod 400) 0); cbn [negb andb orb];
    Z.to_euclidean_division_equations; lia.
Qed.

Lemma days_before_year_mono (y y' : Z) :
  y <= y' -> days_before_year y <= days_before_year y'.
Proof.
  unfold days_before_year. cbv zeta. intros H.
  Z.to_euclidean_division_equations. lia.
Qed.

Ltac month_cases m :=
  let H := fresh in
  assert (H : m = 1 \/ m = 2 \/ m = 3 \/ m = 4 \/ m = 5 \/ m = 6 \/ m = 7 \/ m = 8
              \/ m = 9 \/ m = 10 \/ m = 11 \/ m = 12) by lia;
  repeat (destruct H as [H|H]); subst m.

Lemma valid_date_bounds (y m d : Z) :
  valid_date y m d = true ->
  1 <= y <= 9999 /\ 1 <= m <= 12 /\ 1 <= d <= days_in_month y m.
Proof.
  unfold valid_date. intros H. repeat (apply andb_prop in H as [H ?]). lia.
Qed.

Lemma ymd2ord_bounds (y m d : Z) :
  valid_date y m d = true ->
  days_before_year y + 1 <= ymd2ord y m d <= days_before_year (y + 1).
Proof.
  intros (Hy & Hm & Hd)%valid_date_bounds. rewrite days_before_year_succ.
  unfold ymd2ord, days_before_month, days_in_month in *.
  month_cases m; destruct (is_leap y); cbn in *; lia.
Qed.

Lemma ymd2ord_inj (y m d y' m' d' : Z) :
  valid_date y m d = true -> valid_date y' m' d' = true ->
  ymd2ord y m d = ymd2ord y' m' d' -> y = y' /\ m = m' /\ d = d'.
Proof.
  intros Hv Hv' E.
  pose proof (ymd2ord_bounds _ _ _ Hv) as Hb.
  pose proof (ymd2ord_bounds _ _ _ Hv') as Hb'.
  assert (y = y') as <-.
  { destruct (Z.lt_trichotomy y y') as [H|[H|H]]; [|done|].
    - pose proof (days_before_year_mono (y + 1) y'). lia.
    - pose proof (days_before_year_mono (y' + 1) y). lia. }
  split; [done|].
  apply valid_date_bounds in Hv as (_ & Hm & Hd).
  apply valid_date_bounds in Hv' as (_ & Hm' & Hd').
  unfold ymd2ord, days_before_month, days_in_month in *.
  month_cases m; month_cases m'; destruct (is_leap y); cbn in *; lia.
Qed.

(** The date of an ordinal in range is a date of the calendar and has
    that ordinal. *)
Lemma ord2ymd_ymd2ord (n : Z) :
  1 <= n <= MAXORDINAL ->
  exists y m d, ord2ymd n = (y, m, d) /\ valid_date y m d = true /\ ymd2ord y m d = n.
Proof.
  unfold MAXORDINAL. intros Hn. rewrite ord2ymd_month_day. cbv zeta.
  set (a := (n - 1) / 146097). set (r1 := (n - 1) mod 146097).
  set (b := r1 / 36524). set (r2 := r1 mod 36524).
  set (c := r2 / 1461). set (r3 := r2 mod 1461).
  set (e := r3 / 365). set (r4 := r3 mod 365).
  assert (H : 0 <= a <= 24 /\ n - 1 = 146097 * a + r1
              /\ 0 <= b <= 4 /\ r1 = 36524 * b + r2 /\ 0 <= r2 < 36524
              /\ 0 <= c <= 24 /\ r2 = 1461 * c + r3 /\ 0 <= r3 < 1461
              /\ 0 <= e <= 4 /\ r3 = 365 * e + r4 /\ 0 <= r4 < 365
              /\ (b = 4 -> r2 = 0) /\ (e = 4 -> r4 = 0 /\ c <= 23)).
  { subst a r1 b r2 c r3 e r4. Z.to_euclidean_division_equations. lia. }
  clearbody a r1 b r2 c r3 e r4.
  destruct H as (Ha & Hn1 & Hb & Hr1 & Hr2 & Hc & Hr2' & Hr3 & He & Hr3' & Hr4 & Hb4 & He4).
  assert (Hyear : forall y m d,
            1 <= m <= 12 -> 1 <= d <= days_in_month y m -> 1 <= y ->
            ymd2ord y m d = n -> valid_date y m d = true).
  { intros y m d Hm Hd Hy Ho. unfold valid_date.
    assert (y <= 9999); [|repeat (apply andb_true_intro; split); lia].
    destruct (Z.le_gt_cases y 9999) as [|Hbig]; [done|exfalso].
    pose proof (days_before_year_mono 10000 y) as Hmono.
    change (days_before_year 10000) with 3652059 in Hmono.
    unfold ymd2ord, days_before_month in Ho.
    assert (0 <= DAYS_BEFORE_MONTH m) by (unfold DAYS_BEFORE_MONTH; repeat case_match; lia).
    destruct (_ && _); lia. }
  destruct ((e =? 4) || (b =? 4)) eqn:Esp.
  - assert (Hsp : exists b' c', 0 <= b' <= 3 /\ 0 <= c' <= 24
        /\ (c' = 24 -> b' = 3)
        /\ a * 400 + 1 + b * 100 + c * 4 + e - 1 = 400 * a + 100 * b' + 4 * c' + 3 + 1
        /\ n = 146097 * a + 36524 * b' + 1461 * c' + 1095 + 366).
    { destruct (Z.eqb_spec b 4) as [->|Hb4'].
      - exists 3, 24. specialize (Hb4 eq_refl). lia.
      - destruct (Z.eqb_spec e 4) as [->|]; [|done].
        exists b, c. destruct (He4 eq_refl). lia. }
    destruct Hsp as (b' & c' & Hb' & Hc' & Hcb & -> & ->).
    eexists _, 12, 31. split; [done|].
    assert (Hl : is_leap (400 * a + 100 * b' + 4 * c' + 3 + 1) = true).
    { rewrite is_leap_parts by lia. cbn.
      destruct (Z.eqb_spec c' 24), (Z.eqb_spec b' 3); try done. lia. }
    assert (Ho : ymd2ord (400 * a + 100 * b' + 4 * c' + 3 + 1) 12 31
                 = 146097 * a + 36524 * b' + 1461 * c' + 1095 + 366).
    { unfold ymd2ord, days_before_month.
      rewrite days_before_year_parts, Hl by lia. cbn. lia. }
    split; [|done]. apply Hyear; [lia| |lia|done].
    unfold days_in_month. cbn. lia.
  - apply orb_false_elim in Esp as [E1 E2].
    apply Z.eqb_neq in E1, E2.
    set (leap := (e =? 3) && (negb (c =? 24) || (b =? 3))).
    destruct (month_day_spec r4 leap) as (m & d & -> & Hm & Hd & Hmd).
    { destruct leap; lia. }
    cbn [fst snd]. eexists _, m, d. split; [done|].
    replace (a * 400 + 1 + b * 100 + c * 4 + e) with (400 * a + 100 * b + 4 * c + e + 1)
      by lia.
    assert (Hl : is_leap (400 * a + 100 * b + 4 * c + e + 1) = leap)
      by (apply is_leap_parts; lia).
    assert (Ho : ymd2ord (400 * a + 100 * b + 4 * c + e + 1) m d = n).
    { unfold ymd2ord, days_before_month.
      rewrite days_before_year_parts, Hl by lia. lia. }
    split; [|done]. apply Hyear; [done| |lia|done].
    unfold days_in_month. rewrite Hl. destruct ((m =? 2) && leap) eqn:E; [|lia].
    apply andb_prop in E as [->%Z.eqb_eq _]. cbn in *. lia.
Qed.

Lemma ymd2ord_range (y m d : Z) :
  valid_date y m d = true -> 1 <= ymd2ord y m d <= MAXORDINAL.
Proof.
  intros Hv. pose proof (ymd2ord_bounds _ _ _ Hv) as Hb.
  apply valid_date_bounds in Hv as (Hy & _).
  pose proof (days_before_year_mono 1 y). pose proof (days_before_year_mono (y + 1) 10000).
  change (days_before_year 1) with 0 in *.
  change (days_before_year 10000) with 3652059 in *. unfold MAXORDINAL. lia.
Qed.

Lemma ymd2ord_ord2ymd (y m d : Z) :
  valid_date y m d = true -> ord2ymd (ymd2ord y m d) = (y, m, d).
Proof.
  intros Hv. destruct (ord2ymd_ymd2ord (ymd2ord y m d)) as (y' & m' & d' & -> & Hv' & E).
  { by apply ymd2ord_range. }
  by destruct (ymd2ord_inj _ _ _ _ _ _ Hv' Hv E) as (-> & -> & ->).
Qed.

(** ** Postponing *)

Lemma valid_datetime_date (dt : datetime) :
  valid_datetime dt = true -> valid_date (year dt) (month dt) (day dt) = true.
Proof.
  unfold valid_datetime. intros H. by do 8 (apply andb_prop in H as [H _]).
Qed.

Lemma add_days_Ok (dt dt' : datetime) (n : Z) :
  valid_datetime dt = true -> add_days dt n = Ok dt' ->
  valid_datetime dt' = true
  /\ ymd2ord (year dt') (month dt') (day dt') = ymd2ord (year dt) (month dt) (day dt) + n
  /\ (hour dt', minute dt', second dt', microsecond dt')
     = (hour dt, minute dt, second dt, microsecond dt).
Proof.
  intros Hv. unfold add_days. cbv zeta.
  destruct (_ && _) eqn:Hr; [|done].
  destruct (ord2ymd_ymd2ord (ymd2ord (year dt) (month dt) (day dt) + n))
    as (y & m & d & -> & Hv' & Ho); [unfold MAXORDINAL in *; lia|].
  intros [= <-]. cbn [year month day hour minute second microsecond].
  split; [|done]. unfold valid_datetime in *.
  cbn [year month day hour minute second microsecond]. rewrite Hv'.
  do 8 (apply andb_prop in Hv as [Hv ?]).
  repeat (apply andb_true_intro; split); done.
Qed.

Lemma add_days_compose (dt dt1 : datetime) (a b : Z) :
  valid_datetime dt = true -> add_days dt a = Ok dt1 ->
  add_days dt1 b = add_days dt (a + b).
Proof.
  intros Hv Ha. destruct (add_days_Ok _ _ _ Hv Ha) as (_ & Ho & [= Hh Hm Hs Hu]).
  unfold add_days. cbv zeta. rewrite Ho, Hh, Hm, Hs, Hu.
  by replace (ymd2ord (year dt) (month dt) (day dt) + a + b)
    with (ymd2ord (year dt) (month dt) (day dt) + (a + b)) by lia.
Qed.

Lemma add_days_zero (dt : datetime) : valid_datetime dt = true -> add_days dt 0 = Ok dt.
Proof.
  intros Hv%valid_datetime_date. unfold add_days. cbv zeta. rewrite Z.add_0_r.
  pose proof (ymd2ord_range _ _ _ Hv) as Hr.
  destruct (_ && _) eqn:E; [|lia]. rewrite ymd2ord_ord2ymd by done. by destruct dt.
Qed.

Lemma add_days_small (dt dt' : datetime) (n : Z) :
  valid_datetime dt = true -> add_days dt n = Ok dt' -> Z.abs n <= 3652058.
Proof.
  intros Hv H. pose proof (ymd2ord_range _ _ _ (valid_datetime_date _ Hv)) as Hr.
  unfold add_days, MAXORDINAL in *. cbv zeta in H. destruct (_ && _) eqn:E; [lia|done].
Qed.

Lemma add_days_far (dt : datetime) (n : Z) :
  valid_datetime dt = true -> 3652058 < Z.abs n -> add_days dt n = Raise OverflowError.
Proof.
  intros Hv Hn. destruct (add_days dt n) as [dt'|e] eqn:E.
  - pose proof (add_days_small _ _ _ Hv E). lia.
  - unfold add_days in E. cbv zeta in E. destruct (_ && _); [|congruence].
    by destruct (ord2ymd _) as [[? ?] ?].
Qed.

(** X12: [postpone] on a task whose due date is a datetime, when it returns:
    it prints nothing, keeps the object, id, name, priority and status,
    and moves the due date by exactly [days] days of the calendar (the
    day number grows by [days]), at the same time of day. *)
Theorem postpone_moves_due_date (t t' : Task) (dt : datetime) (days : Z) (ms : list message) :
  due_date t = Datetime dt -> valid_datetime dt = true ->
  Task_postpone t days = Ok (t', ms) ->
  ms = []
  /\ (obj t', task_id t', name t', priority t', status t')
     = (obj t, task_id t, name t, priority t, status t)
  /\ exists dt', due_date t' = Datetime dt' /\ valid_datetime dt' = true
       /\ ymd2ord (year dt') (month dt') (day dt')
          = ymd2ord (year dt) (month dt) (day dt) + days
       /\ (hour dt', minute dt', second dt', microsecond dt')
          = (hour dt, minute dt, second dt, microsecond dt).
Proof.
  intros Hd Hv. unfold Task_postpone. rewrite Hd. cbn [truthy].
  destruct (999999999 <? Z.abs days); [done|].
  destruct (add_days dt days) as [dt'|] eqn:E; [|done]. cbn [result_bind].
  intros [= <- <-]. split; [done|]. split; [done|].
  exists dt'. split; [done|]. by apply add_days_Ok.
Qed.

(** X13: Postponing by [a] days and then by [b] days, when the first call
    returns, does what postponing once by [a + b] days does (the same
    task, or the same [OverflowError]); in particular postponing by [-a]
    afterwards gives the task back as it was. *)
Theorem postpone_twice (t t1 : Task) (dt : datetime) (a b : Z) (ms : list message) :
  due_date t = Datetime dt -> valid_datetime dt = true ->
  Task_postpone t a = Ok (t1, ms) ->
  Task_postpone t1 b = Task_postpone t (a + b)
  /\ Task_postpone t1 (- a) = Ok (t, []).
Proof.
  intros Hd Hv. unfold Task_postpone at 1. rewrite Hd. cbn [truthy].
  destruct (999999999 <? Z.abs a); [done|].
  destruct (add_days dt a) as [dt1|] eqn:Ea; [|done]. cbn [result_bind].
  intros [= <- <-].
  assert (Hc : forall c, Task_postpone (set_due_date (Datetime dt1) t) c
                         = Task_postpone t (a + c)).
  { intros c. unfold Task_postpone. rewrite Hd.
    cbn [due_date set_due_date truthy name].
    rewrite (add_days_compose dt dt1 a c Hv Ea).
    pose proof (add_days_small _ _ _ Hv Ea) as Hsmall.
    destruct (Z.ltb_spec 999999999 (Z.abs c)) as [Hc|Hc],
      (Z.ltb_spec 999999999 (Z.abs (a + c))) as [Hac|Hac]; try done.
    - rewrite add_days_far; [done..|lia].
    - rewrite add_days_far; [done..|lia]. }
  split; [apply Hc|]. rewrite Hc, Z.add_opp_diag_r.
  unfold Task_postpone. rewrite Hd. cbn [truthy Z.abs Z.ltb Z.compare].
  rewrite add_days_zero by done. cbn [result_bind]. rewrite <- Hd. by destruct t.
Qed.

(** X18: [postpone] on a task whose due date is a datetime returns exactly
    when the day it moves to lies in the calendar (day numbers 1 to
    3652059, years 1 to 9999); otherwise it raises [OverflowError], which
    nothing in the program catches. *)
Theorem postpone_overflow_iff (t : Task) (dt : datetime) (days : Z) :
  due_date t = Datetime dt -> valid_datetime dt = true ->
  let o := ymd2ord (year dt) (month dt) (day dt) + days in
  (1 <= o <= MAXORDINAL -> exists t', Task_postpone t days = Ok (t', []))
  /\ (~ 1 <= o <= MAXORDINAL -> Task_postpone t days = Raise OverflowError).
Proof.
  intros Hd Hv o. subst o.
  pose proof (ymd2ord_range _ _ _ (valid_datetime_date _ Hv)) as Hr.
  unfold Task_postpone. rewrite Hd. cbn [truthy]. unfold MAXORDINAL in *.
  destruct (Z.ltb_spec 999999999 (Z.abs days)) as [Hbig|Hsmall].
  - split; [lia|done].
  - unfold add_days, MAXORDINAL. cbv zeta.
    destruct (_ && _) eqn:E.
    + split; [|lia]. intros _. destruct (ord2ymd _) as [[y m] d]. by eexists.
    + split; [lia|done].
Qed.

Lemma postpone_overflow_iff_witness :
  let t := mkTask 0 (VInt 1) (VStr "a") (VInt 1)
             (Datetime (mkDatetime 9999 12 31 9 30 0 0)) (VStr "Pending") in
  valid_datetime (mkDatetime 9999 12 31 9 30 0 0) = true
  /\ ~ 1 <= ymd2ord 9999 12 31 + 1 <= MAXORDINAL
  /\ Task_postpone t 1 = Raise OverflowError.
Proof.
  intros t.
  assert (H1 : valid_datetime (mkDatetime 9999 12 31 9 30 0 0) = true) by reflexivity.
  assert (H2 : ~ 1 <= ymd2ord 9999 12 31 + 1 <= MAXORDINAL) by (vm_compute; intros [_ H]; by apply H).
  split; [exact H1|]. split; [exact H2|].
  exact (proj2 (postpone_overflow_iff t _ 1 eq_refl H1) H2).
Defined.

Lemma postpone_moves_due_date_witness :
  let t := mkTask 0 (VInt 1) (VStr "a") (VInt 1)
             (Datetime (mkDatetime 2024 2 28 9 30 0 5)) (VStr "Pending") in
  valid_datetime (mkDatetime 2024 2 28 9 30 0 5) = true
  /\ Task_postpone t 2 = Ok (set_due_date (Datetime (mkDatetime 2024 3 1 9 30 0 5)) t, [])
  /\ ymd2ord 2024 3 1 = ymd2ord 2024 2 28 + 2.
Proof.
  intros t.
  assert (H1 : valid_datetime (mkDatetime 2024 2 28 9 30 0 5) = true) by reflexivity.
  assert (H2 : Task_postpone t 2
               = Ok (set_due_date (Datetime (mkDatetime 2024 3 1 9 30 0 5)) t, []))
    by reflexivity.
  split; [exact H1|]. split; [exact H2|].
  destruct (postpone_moves_due_date t _ _ 2 _ eq_refl H1 H2)
    as (_ & _ & dt' & Hd & _ & Ho & _).
  injection Hd as <-. exact Ho.
Defined.

Lemma postpone_twice_witness :
  let t := mkTask 0 (VInt 1) (VStr "a") (VInt 1)
             (Datetime (mkDatetime 2024 2 28 9 30 0 5)) (VStr "Pending") in
  let t1 := set_due_date (Datetime (mkDatetime 2024 3 1 9 30 0 5)) t in
  valid_datetime (mkDatetime 2024 2 28 9 30 0 5) = true
  /\ Task_postpone t 2 = Ok (t1, [])
  /\ Task_postpone t1 (- 2) = Ok (t, []).
Proof.
  intros t t1.
  assert (H1 : valid_datetime (mkDatetime 2024 2 28 9 30 0 5) = true) by reflexivity.
  assert (H2 : Task_postpone t 2 = Ok (t1, [])) by reflexivity.
  split; [exact H1|]. split; [exact H2|].
  exact (proj2 (postpone_twice t t1 _ 2 0 [] eq_refl H1 H2)).
Defined.

(** ** Reading a date back *)

Lemma fmt4_checked : all_in 14 0 fmt4_ok = true.
Proof. vm_compute. reflexivity. Qed.

Lemma fmt_d_4 (n : Z) : 0 <= n <= 9999 -> fmt_d 4 n = digits4 n.
Proof.
  intros Hn. pose proof (all_in_spec _ _ _ fmt4_checked n) as H.
  unfold fmt4_ok in H. destruct (Z.leb_spec n 9999); [|lia].
  apply String.eqb_eq, H. cbn. lia.
Qed.

Lemma re_range_digit (d : Z) (r : string) :
  0 <= d <= 9 -> re_range 0 9 (String (digit_char d) r) = [(d, r)].
Proof.
  intros Hd.
  assert (H : d = 0 \/ d = 1 \/ d = 2 \/ d = 3 \/ d = 4 \/ d = 5 \/ d = 6 \/ d = 7
              \/ d = 8 \/ d = 9) by lia.
  repeat (destruct H as [H|H]); subst d; reflexivity.
Qed.

Lemma append_String (c : ascii) (s r : string) : String c s +:+ r = String c (s +:+ r).
Proof. reflexivity. Qed.

Lemma append_empty (r : string) : "" +:+ r = r.
Proof. reflexivity. Qed.

Lemma re_Y_digits (y : Z) (r : string) :
  0 <= y <= 9999 -> re_Y (digits4 y +:+ r) = [(y, r)].
Proof.
  intros Hy. unfold re_Y, re_seq, digits4. rewrite !append_String, append_empty.
  repeat (rewrite re_range_digit by (Z.to_euclidean_division_equations; lia);
          cbn [mbind list_bind app]).
  do 2 f_equal. unfold two_digits. Z.to_euclidean_division_equations. lia.
Qed.

Lemma re_date_split (s : string) :
  re_date s
  = '(y, r) ← re_Y s;
    '(md, r') ← re_seq (fun _ md => md) (re_char "-")
                  (re_seq (fun m d => (m, d)) re_m
                     (re_seq (fun _ d => d) (re_char "-") re_d)) r;
    [((y, fst md, snd md), r')].
Proof. reflexivity. Qed.

Lemma valid_day_cases (y m d : Z) :
  valid_date y m d = true ->
  d = 1 \/ d = 2 \/ d = 3 \/ d = 4 \/ d = 5 \/ d = 6 \/ d = 7 \/ d = 8 \/ d = 9 \/ d = 10
  \/ d = 11 \/ d = 12 \/ d = 13 \/ d = 14 \/ d = 15 \/ d = 16 \/ d = 17 \/ d = 18
  \/ d = 19 \/ d = 20 \/ d = 21 \/ d = 22 \/ d = 23 \/ d = 24 \/ d = 25 \/ d = 26
  \/ d = 27 \/ d = 28 \/ d = 29 \/ d = 30 \/ d = 31.
Proof.
  intros (_ & Hm & Hd)%valid_date_bounds. unfold days_in_month in Hd.
  month_cases m; destruct (is_leap y); cbn in Hd; lia.
Qed.

(** The text of a date of the calendar is read back as that date. *)
Lemma strptime_date_text (y m d : Z) :
  valid_date y m d = true ->
  strptime (date_text y m d) = Ok (mkDatetime y m d 0 0 0 0).
Proof.
  intros Hv. pose proof (valid_date_bounds _ _ _ Hv) as (Hy & Hm & _).
  pose proof (valid_day_cases _ _ _ Hv) as Hd.
  unfold strptime, date_text. rewrite fmt_d_4, re_date_split, re_Y_digits by lia.
  cbn [mbind list_bind app].
  month_cases m; repeat (destruct Hd as [Hd|Hd]); subst d;
    vm_compute (fmt_d 2 _ +:+ "-" +:+ fmt_d 2 _); 
    (lazy -[valid_date]; by rewrite Hv).
Qed.

Lemma date_text_not_None (y m d : Z) : String.eqb (date_text y m d) "None" = false.
Proof.
  apply String.eqb_neq. intros E.
  assert (H : (10 <= String.length (date_text y m d))%nat).
  { unfold date_text. rewrite !string_length_app.
    pose proof (fmt_d_length 4 y). pose proof (fmt_d_length 2 m).
    pose proof (fmt_d_length 2 d). cbn [String.length]. lia. }
  rewrite E in H. cbn in H. lia.
Qed.

(** X9: A record whose due date is the text [YYYY-MM-DD] of a date of the
    calendar loads, whatever its other values are, into a task due on
    that date at 00:00:00. *)
Theorem load_reads_date_text (tid nm pr st : data) (y m d : Z) (wr : bool) :
  valid_date y m d = true ->
  exists (w : World) (t : Task),
    TaskManager_init (Doc (DList [record tid nm pr (DStr (date_text y m d)) st])) true wr
    = (w, None)
    /\ tasks w = [t]
    /\ fields t = (Plain tid, Plain nm, Plain pr, Datetime (mkDatetime y m d 0 0 0 0), Plain st).
Proof.
  intros Hv. unfold TaskManager_init, load_tasks.
  cbn [disk can_read iterate load_loop].
  assert (E : load_args (record tid nm pr (DStr (date_text y m d)) st)
              = Ok (Plain tid, Plain nm, Plain pr, Datetime (mkDatetime y m d 0 0 0 0))).
  { unfold load_args, record.
    cbn [subscript dict_get String.eqb Ascii.eqb Bool.eqb result_bind data_eq].
    rewrite date_text_not_None. cbn [negb]. by rewrite strptime_date_text. }
  rewrite E. by eexists _, _.
Qed.

Lemma load_reads_date_text_witness :
  valid_date 2024 2 29 = true
  /\ date_text 2024 2 29 = "2024-02-29"
  /\ exists (w : World) (t : Task),
      TaskManager_init
        (Doc (DList [record (DInt 1) (DStr "a") (DInt 1) (DStr (date_text 2024 2 29))
                       (DStr "Pending")])) true true = (w, None)
      /\ tasks w = [t]
      /\ due_date t = Datetime (mkDatetime 2024 2 29 0 0 0 0).
Proof.
  assert (H : valid_date 2024 2 29 = true) by reflexivity.
  split; [exact H|]. split; [reflexivity|].
  destruct (load_reads_date_text (DInt 1) (DStr "a") (DInt 1) (DStr "Pending") _ _ _ true H)
    as (w & t & H1 & H2 & H3).
  exists w, t. split; [exact H1|]. split; [exact H2|]. by injection H3.
Defined.

(** ** What prioritizing and a run keep *)

Lemma tasks_prioritize_perm (w : World) : tasks (prioritize_tasks w) ≡ₚ tasks w.
Proof.
  unfold prioritize_tasks. pose proof (list_sort_perm (tasks w)) as E.
  destruct (list_sort (tasks w)) as [l [e|]]; cbn [fst] in E; [done|].
  cbn [tasks print]. by rewrite tasks_save_tasks.
Qed.

(** X14: [prioritize_tasks] reorders and nothing else: on every store, whether
    or not the keys can be compared, the list afterwards holds exactly
    the tasks it held before. *)
Theorem prioritize_keeps_tasks (w : World) : tasks (prioritize_tasks w) ≡ₚ tasks w.
Proof. exact (tasks_prioritize_perm w). Qed.

(** X15: Whatever the file and whatever calls are made on the manager, the
    list never holds one [Task] object in two slots, and every object in
    it was created by this run. *)
Theorem run_keeps_objects_distinct (f : file) (r wr : bool) (cs : list call) :
  let w := run_all cs (fst (TaskManager_init f r wr)) in
  NoDup (map obj (tasks w)) /\ Forall (fun t => (obj t < next_obj w)%nat) (tasks w).
Proof. exact (proj1 (run_all_step cs _ (TaskManager_init_ok f r wr))). Qed.

(** ** Properties of tasks that every call but a load keeps *)

Section Kept.
Variable P : Task -> Prop.
Hypothesis P_complete : forall t, P t -> P (Task_mark_complete t).
Hypothesis P_due : forall t dt, P t -> P (set_due_date (Datetime dt) t).

Lemma Forall_update_obj (o : nat) (f : Task -> Task) (l : list Task) :
  (forall t, t ∈ l -> P t -> P (f t)) -> Forall P l -> Forall P (update_obj o f l).
Proof.
  intros Hf Hl. unfold update_obj. apply Forall_fmap, Forall_forall.
  rewrite Forall_forall in Hl. intros t Ht. cbn.
  destruct (obj t =? o)%nat; auto.
Qed.

Lemma Task_postpone_keeps (t t' : Task) (days : Z) (ms : list message) :
  P t -> Task_postpone t days = Ok (t', ms) -> P t'.
Proof.
  intros Ht. unfold Task_postpone. destruct (truthy (due_date t)).
  - destruct (999999999 <? Z.abs days); [done|].
    destruct (due_date t) as [|dt]; [done|].
    destruct (add_days dt days) as [dt'|]; [|done]. cbn [result_bind].
    intros [= <- _]. by apply P_due.
  - by intros [= <- _].
Qed.

Lemma run_keeps (c : call) (w : World) :
  match c with
  | CallLoadTasks => False
  | CallAddTask nm pr due => forall o tid, P (Task_init o (VInt tid) nm pr due)
  | _ => True
  end ->
  Forall P (tasks w) -> Forall P (tasks (fst (run c w))).
Proof.
  intros Hc Hw. destruct c; cbn [run fst]; try done.
  - rewrite tasks_add_task. apply Forall_app. split; [done|]. by constructor.
  - unfold list_tasks. by rewrite (proj1 (list_loop_frame _ _)).
  - unfold get_task_by_id. by destruct (find_task tid (tasks w)).
  - unfold remove_task, get_task_by_id. destruct (find_task tid (tasks w)); [|done].
    cbn [tasks print]. rewrite tasks_save_tasks. cbn [tasks set_tasks].
    rewrite Forall_forall in Hw. apply Forall_forall. intros x Hx. apply Hw.
    eapply elem_of_sublist; [exact Hx|apply list_remove_sublist].
  - rewrite tasks_prioritize_perm. done.
  - unfold mark_task_complete, get_task_by_id.
    destruct (find_task tid (tasks w)); [|done].
    cbn [tasks print]. rewrite tasks_save_tasks. cbn [tasks set_tasks].
    apply Forall_update_obj; auto.
  - by rewrite tasks_save_tasks.
  - cbn [tasks set_tasks]. apply Forall_update_obj; auto.
  - unfold postpone_obj. destruct (find _ (tasks w)) as [t|] eqn:E; [|done].
    apply find_obj_Some in E as [Ht _].
    destruct (Task_postpone t days) as [[t' ms]|] eqn:Ep; [|done].
    cbn [fst]. rewrite (proj1 (prints_frame ms _)). cbn [tasks set_tasks].
    apply Forall_update_obj; [|done]. intros _ _ _.
    eapply Task_postpone_keeps; [|exact Ep]. rewrite Forall_forall in Hw. auto.
Qed.

Lemma run_all_keeps (cs : list call) (w : World) :
  Forall (fun c => match c with
                   | CallLoadTasks => False
                   | CallAddTask nm pr due => forall o tid, P (Task_init o (VInt tid) nm pr due)
                   | _ => True
                   end) cs ->
  Forall P (tasks w) -> Forall P (tasks (run_all cs w)).
Proof.
  intros Hcs. revert w. induction Hcs as [|c cs Hc _ IH]; intros w Hw; [done|].
  cbn [run_all foldl]. apply IH. by apply run_keeps.
Qed.
End Kept.

(** X16: Without a load, the status of every task stays in the enumeration:
    from a store whose tasks are ["Pending"] or ["Completed"] (an empty
    one, for instance), no sequence of calls other than [load_tasks]
    leads to a task with another status. *)
Theorem status_enumeration_kept (cs : list call) (w : World) :
  Forall (fun t => status t = VStr "Pending" \/ status t = VStr "Completed") (tasks w) ->
  Forall (fun c => c <> CallLoadTasks) cs ->
  Forall (fun t => status t = VStr "Pending" \/ status t = VStr "Completed")
    (tasks (run_all cs w)).
Proof.
  intros Hw Hcs. apply run_all_keeps; [by right|auto| |done].
  eapply Forall_impl; [exact Hcs|]. intros c Hc. destruct c; try done. by left.
Qed.

Lemma status_enumeration_kept_witness :
  Forall (fun t => status t = VStr "Pending" \/ status t = VStr "Completed") (tasks store_two)
  /\ Forall (fun t => status t = VStr "Pending" \/ status t = VStr "Completed")
       (tasks (run_all [CallMarkTaskComplete (VInt 2); CallPostpone 0 3; CallPrioritizeTasks]
                 store_two)).
Proof.
  assert (H : Forall (fun t => status t = VStr "Pending" \/ status t = VStr "Completed")
                (tasks store_two)) by (repeat constructor).
  split; [exact H|]. apply (status_enumeration_kept _ store_two H).
  repeat constructor; discriminate.
Defined.



(** ** The file after calls of the manager *)





(** A sort that raises leaves the file behind the list: the list is
    reordered and nothing is saved. *)
Example prioritize_failure_leaves_file_stale :
  synced store_sixty_four
  /\ disk (prioritize_tasks store_sixty_four) = disk store_sixty_four
  /\ ~ synced (prioritize_tasks store_sixty_four).
Proof.
  split; [vm_compute; reflexivity|]. split; [vm_compute; reflexivity|].
  unfold synced. vm_compute. discriminate.
Qed.
